(** * Attendance ledger and live-presence engine of the shop access bot

    Shallow embedding of [src/slack_bot_main.py]: the attendance CSV
    ledger, the in-memory [CURRENT_MEMBERS] set, check-in / check-out,
    startup reconciliation, the escalation (notification) chain and the
    approval authority.

    Modelling conventions.
    - Timestamps are naive [datetime] values, represented as a [Z] count of
      microseconds (the resolution of [datetime.isoformat]).  A ledger cell
      holding a timestamp is either text that [datetime.fromisoformat]
      parses ([Iso t]) or text it rejects ([Garbage s]).
    - A [check_out] cell is [None] when [cell.strip()] is empty, i.e. the
      session is open.
    - Python's float arithmetic on hours is modelled with exact rationals
      [Q]; [round(x, d)] is rounding to [d] decimals, ties to even.
    - Python strings are [String.string]; [str.strip] and [str.lower] are
      written out for the code points 0..255 (Latin-1), which is what an
      8-bit [ascii] character can hold.
    - The members registry ([load_members]) is a dict keyed by [slack_id];
      it is modelled as the list of its values in insertion order, with
      [members.get(k)] the entry whose [slack_id] is [k].
    - [CURRENT_MEMBERS] is a [gset string]. *)

From Stdlib Require Import ZArith QArith String Ascii List Lia Sorting.Sorted.
From stdpp Require Import base gmap sets list strings.
Import ListNotations.

Open Scope Z_scope.

(** ** Python string helpers *)

(** [c.isspace()] for code points below 256: \t \n \x0b \x0c \r,
    \x1c..\x1f, space, \x85 and \xa0. *)
Definition py_isspace (c : ascii) : bool :=
  let n := Z.of_N (N_of_ascii c) in
  ((9 <=? n) && (n <=? 13)) || ((28 <=? n) && (n <=? 32))
  || (n =? 133) || (n =? 160).

Fixpoint lstrip (s : string) : string :=
  match s with
  | EmptyString => EmptyString
  | String c s' => if py_isspace c then lstrip s' else s
  end.

Definition rstrip (s : string) : string :=
  string_of_list_ascii (rev (list_ascii_of_string
    (lstrip (string_of_list_ascii (rev (list_ascii_of_string s)))))).

(** [s.strip()] *)
Definition strip (s : string) : string := rstrip (lstrip s).

(** [c.lower()] for code points below 256: A..Z and the Latin-1
    capitals (192..222 except the multiplication sign 215). *)
Definition py_lower_char (c : ascii) : ascii :=
  let n := N_of_ascii c in
  if ((65 <=? n)%N && (n <=? 90)%N)
     || ((192 <=? n)%N && (n <=? 222)%N && negb (n =? 215)%N)
  then ascii_of_N (n + 32) else c.

(** [s.lower()] *)
Fixpoint lower (s : string) : string :=
  match s with
  | EmptyString => EmptyString
  | String c s' => String (py_lower_char c) (lower s')
  end.

(** [s.split()]: the maximal runs of non-whitespace characters.  [word]
    is the run read so far. *)
Fixpoint py_split_go (s word : string) : list string :=
  match s with
  | EmptyString => if String.eqb word "" then [] else [word]
  | String c s' =>
      if py_isspace c
      then (if String.eqb word "" then [] else [word]) ++ py_split_go s' ""
      else py_split_go s' (word ++ String c "")
  end.

Definition py_split (s : string) : list string := py_split_go s "".

(** [sep.join(l)] *)
Fixpoint py_join (sep : string) (l : list string) : string :=
  match l with
  | [] => ""
  | [x] => x
  | x :: xs => x ++ sep ++ py_join sep xs
  end.

(** [p in s] *)
Fixpoint py_contains (p s : string) : bool :=
  String.prefix p s ||
  match s with
  | EmptyString => false
  | String _ s' => py_contains p s'
  end.

(** [c.isdigit()] for code points below 256: 0..9 and the superscripts
    two, three and one. *)
Definition py_isdigit_char (c : ascii) : bool :=
  let n := N_of_ascii c in
  ((48 <=? n)%N && (n <=? 57)%N) || (n =? 178)%N || (n =? 179)%N || (n =? 185)%N.

Fixpoint all_chars (p : ascii -> bool) (s : string) : bool :=
  match s with
  | EmptyString => true
  | String c s' => p c && all_chars p s'
  end.

(** [s.isdigit()] *)
Definition py_isdigit (s : string) : bool :=
  negb (String.eqb s "") && all_chars py_isdigit_char s.

Fixpoint decimal_value (s : string) (acc : Z) : option Z :=
  match s with
  | EmptyString => Some acc
  | String c s' =>
      let n := Z.of_N (N_of_ascii c) in
      if (48 <=? n) && (n <=? 57) then decimal_value s' (10 * acc + (n - 48)) else None
  end.

(** [int(s)] on a string without whitespace, sign or underscore: [None]
    where Python raises [ValueError] (the empty string, or a character that
    is not a decimal digit: below 256 the decimal digits are 0..9). *)
Definition py_int (s : string) : option Z :=
  if String.eqb s "" then None else decimal_value s 0.

(** ** Rounding and time *)

(** [round(q, d)]: nearest multiple of [10^-d], ties to even. *)
Definition py_round (d : Z) (q : Q) : Q :=
  let x := Qmult q (inject_Z (10 ^ d)) in
  let n := Qnum x in
  let den := Zpos (Qden x) in
  let fl := n / den in
  let r := n mod den in
  let k := if 2 * r <? den then fl
           else if den <? 2 * r then fl + 1
           else if Z.even fl then fl else fl + 1 in
  Qmake k (Z.to_pos (10 ^ d)).

(** Microseconds in one hour. *)
Definition us_per_hour : Z := 3600 * 1000000.

(** [(b - a).total_seconds() / 3600] *)
Definition hours_between (a b : Z) : Q := Qmake (b - a) (Z.to_pos us_per_hour).

Inductive stamp :=
| Iso (t : Z)
| Garbage (s : string).

(** ** The attendance ledger ([ATTENDANCE_HEADERS]) *)

Module Row.
Record t := mk {
    card_uid : string;
    member_name : string;
    check_in : stamp;
    check_out : option stamp;
    hours : Q;
    approved : string
  }.
End Row.

(** ** The members registry *)

Module Member.
Record t := mk {
    slack_id : string;
    member_name : string;
    card_uid : string;
    (** [int(member.get("seniority", 5))], [None] when [int] raises *)
    seniority : option Z;
    lead_slack_id : string
  }.
End Member.

Definition ADMIN_SLACK_ID : string := "U07U7V298Q2".
Definition STALE_SESSION_HOURS : Z := 12.

(** [get_seniority] *)
Definition get_seniority (m : Member.t) : Z :=
  match Member.seniority m with
  | Some v => if (v <? 1) || (5 <? v) then 5 else v
  | None => 5
  end.

(** [members.get(k)] *)
Definition members_get (members : list Member.t) (k : string) : option Member.t :=
  find (fun m => String.eqb (Member.slack_id m) k) members.

(** ** Attendance CSV helpers *)

(** [not row["check_out"].strip()] *)
Definition is_open (r : Row.t) : bool :=
  match Row.check_out r with None => true | Some _ => false end.

(** [a.strip().lower() == b.strip().lower()] *)
Definition same_name (a b : string) : bool :=
  String.eqb (lower (strip a)) (lower (strip b)).

(** The loop [for i in range(len(rows) - 1, -1, -1): if p(rows[i]): ...
    break]: the highest index whose row satisfies [p]. *)
Fixpoint find_last_index {A} (p : A -> bool) (l : list A) : option nat :=
  match l with
  | [] => None
  | x :: xs =>
      match find_last_index p xs with
      | Some i => Some (S i)
      | None => if p x then Some O else None
      end
  end.

(** [append_session]: the row appended on check-in. *)
Definition new_session (card_uid name : string) (check_in_dt : Z) : Row.t :=
  Row.mk card_uid name (Iso check_in_dt) None 0%Q "False".

(** [get_open_session] *)
Definition get_open_session (card_uid : string) (rows : list Row.t) : option Row.t :=
  find (fun r => String.eqb (Row.card_uid r) card_uid && is_open r) (rev rows).

(** The row as mutated by [close_open_session]. *)
Definition close_row (r : Row.t) (checkout_dt : Z) (hrs : Q) : Row.t :=
  Row.mk (Row.card_uid r) (Row.member_name r) (Row.check_in r)
         (Some (Iso checkout_dt)) hrs "False".

(** [close_open_session card_uid member_name checkout_dt]: the pair it
    returns ([None] for [(None, None)]) and the rows it writes ([None]
    when it performs no write). *)
Definition close_open_session (card_uid member_name : string) (checkout_dt : Z)
    (rows : list Row.t) : option (Q * stamp) * option (list Row.t) :=
  let target :=
    match find_last_index
            (fun r => String.eqb (Row.card_uid r) card_uid && is_open r) rows with
    | Some i => Some i
    | None =>
        find_last_index
          (fun r => same_name (Row.member_name r) member_name && is_open r) rows
    end in
  match target with
  | None => (None, None)
  | Some i =>
      match rows !! i with
      | None => (None, None)
      | Some r =>
          let hrs := match Row.check_in r with
                     | Iso t1 => py_round 2 (hours_between t1 checkout_dt)
                     | Garbage _ => 0%Q
                     end in
          (Some (hrs, Row.check_in r), Some (<[i := close_row r checkout_dt hrs]> rows))
      end
  end.

(** [str(row.get("approved", "")).lower() in ("false", "", "none")] *)
Definition is_pending (r : Row.t) : bool :=
  let a := lower (Row.approved r) in
  String.eqb a "false" || String.eqb a "" || String.eqb a "none".

Definition approve_row (r : Row.t) : Row.t :=
  Row.mk (Row.card_uid r) (Row.member_name r) (Row.check_in r)
         (Row.check_out r) (Row.hours r) "True".

(** The loop of [approve_all_sessions]: the mutated rows and [count]. *)
Fixpoint approve_loop (member_name : string) (rows : list Row.t) : list Row.t * nat :=
  match rows with
  | [] => ([], O)
  | r :: rs =>
      let '(rs', c) := approve_loop member_name rs in
      if same_name (Row.member_name r) member_name && is_pending r
      then (approve_row r :: rs', S c)
      else (r :: rs', c)
  end.

(** [approve_all_sessions]: the count and the rows written ([None]: no
    write, [if count:] is false). *)
Definition approve_all_sessions (member_name : string) (rows : list Row.t)
    : nat * option (list Row.t) :=
  let '(rows', count) := approve_loop member_name rows in
  match count with
  | O => (O, None)
  | S _ => (count, Some rows')
  end.

(** [enumerate(rows)] *)
Definition enumerate {A} (l : list A) : list (nat * A) := zip (seq 0 (length l)) l.

(** [get_unapproved_sessions member_name]: the index in the ledger and the
    row of each pending session of the member, in ledger order. *)
Definition get_unapproved_sessions (member_name : string) (rows : list Row.t)
    : list (nat * Row.t) :=
  List.filter (fun e => same_name (Row.member_name e.2) member_name && is_pending e.2)
              (enumerate rows).

(** [approve_session global_index]: its result and the rows written. *)
Definition approve_session (global_index : Z) (rows : list Row.t)
    : bool * option (list Row.t) :=
  if (0 <=? global_index) && (global_index <? Z.of_nat (length rows))
  then (true, Some (alter approve_row (Z.to_nat global_index) rows))
  else (false, None).

(** [delete_session global_index]: its result and the rows written
    ([rows.pop(global_index)]). *)
Definition delete_session (global_index : Z) (rows : list Row.t)
    : bool * option (list Row.t) :=
  if (0 <=? global_index) && (global_index <? Z.of_nat (length rows))
  then (true, Some (delete (Z.to_nat global_index) rows))
  else (false, None).

(** ** Startup recovery ([rebuild_current_members]) *)

Record rebuild_acc := RebuildAcc {
  seen_names : gset string;
  cur : gset string;
  recovered : list string;
  stale : list (string * stamp * Q)
}.

(** Age of an open session in hours; [0] when [fromisoformat] raises. *)
Definition age_hours (ci : stamp) (now : Z) : Q :=
  match ci with
  | Iso t => hours_between t now
  | Garbage _ => 0%Q
  end.

(** [age_hours > STALE_SESSION_HOURS] *)
Definition is_stale_age (age : Q) : bool :=
  negb (Qle_bool age (inject_Z STALE_SESSION_HOURS)).

(** One iteration of [for row in reversed(rows)]. *)
Definition rebuild_step (now : Z) (acc : rebuild_acc) (r : Row.t) : rebuild_acc :=
  if negb (is_open r) then acc
  else
    let name := strip (Row.member_name r) in
    if bool_decide (name ∈ seen_names acc) then acc
    else
      let seen' := {[name]} ∪ seen_names acc in
      let age := age_hours (Row.check_in r) now in
      if is_stale_age age
      then RebuildAcc seen' (cur acc) (recovered acc)
                      (stale acc ++ [(name, Row.check_in r, py_round 1 age)])
      else RebuildAcc seen' ({[name]} ∪ cur acc) (recovered acc ++ [name]) (stale acc).

(** [rebuild_current_members] started with [CURRENT_MEMBERS = current0]:
    the new [CURRENT_MEMBERS] and the returned [(recovered, stale)].  It
    only reads the ledger. *)
Definition rebuild_current_members (rows : list Row.t) (now : Z) (current0 : gset string)
    : gset string * list string * list (string * stamp * Q) :=
  let acc := fold_left (rebuild_step now) (rev rows) (RebuildAcc ∅ current0 [] []) in
  (cur acc, recovered acc, stale acc).

(** ** Seniority-based notification helpers *)

(** [(get_seniority(a), a["member_name"]) < (get_seniority(b), b["member_name"])]
    as Python compares tuples. *)
Definition key_lt (a b : Member.t) : bool :=
  (get_seniority a <? get_seniority b)
  || ((get_seniority a =? get_seniority b)
      && String.ltb (Member.member_name a) (Member.member_name b)).

(** [min(xs, key=...)]: the first element of least key, [None] for an
    empty list (where Python raises; the code never calls it there). *)
Definition py_min_by {A} (lt : A -> A -> bool) (l : list A) : option A :=
  match l with
  | [] => None
  | x :: xs => Some (fold_left (fun best y => if lt y best then y else best) xs x)
  end.

(** The [candidates] of [find_most_senior_in_shop]. *)
Definition shop_candidates (members : list Member.t) (current : gset string)
    (exclude_name : string) : list Member.t :=
  List.filter (fun m => bool_decide (Member.member_name m ∈ current)
                   && negb (String.eqb (Member.member_name m) exclude_name)) members.

(** [find_most_senior_in_shop] *)
Definition find_most_senior_in_shop (members : list Member.t) (current : gset string)
    (exclude_name : string) : option string :=
  match py_min_by key_lt (shop_candidates members current exclude_name) with
  | None => None
  | Some best => Some (Member.slack_id best)
  end.

(** [name_to_member.get(k)]: the dict comprehension keeps the last member
    of each key. *)
Definition name_to_member_get (members : list Member.t) (k : string) : option Member.t :=
  find (fun m => String.eqb (lower (strip (Member.member_name m))) k) (rev members).

(** The body of the [for row in read_attendance_rows()] loop of
    [find_notify_target]: the member appended to [co_present], if any. *)
Definition co_present_entry (members : list Member.t) (exclude_name : string)
    (session_start checkout_dt : Z) (r : Row.t) : option Member.t :=
  let row_name := strip (Row.member_name r) in
  if String.eqb (lower row_name) (lower (strip exclude_name)) then None else
  match name_to_member_get members (lower row_name) with
  | None => None
  | Some mm =>
      match Row.check_in r with
      | Garbage _ => None
      | Iso row_checkin =>
          if row_checkin <? checkout_dt - 24 * us_per_hour then None else
          match Row.check_out r with
          | Some (Garbage _) => None
          | Some (Iso row_checkout) =>
              if (row_checkin <? checkout_dt) && (session_start <? row_checkout)
              then Some mm else None
          | None => if row_checkin <? checkout_dt then Some mm else None
          end
      end
  end.

Fixpoint collect {A B} (f : A -> option B) (l : list A) : list B :=
  match l with
  | [] => []
  | x :: xs => match f x with Some y => y :: collect f xs | None => collect f xs end
  end.

Definition co_present (members : list Member.t) (exclude_name : string)
    (session_start checkout_dt : Z) (rows : list Row.t) : list Member.t :=
  collect (co_present_entry members exclude_name session_start checkout_dt) rows.

(** [lead_id or ADMIN_SLACK_ID] *)
Definition lead_or_admin (m : Member.t) : string :=
  let lead_id := strip (Member.lead_slack_id m) in
  if String.eqb lead_id "" then ADMIN_SLACK_ID else lead_id.

(** [find_notify_target check_in_iso checkout_dt checking_out_member members],
    reading the ledger [rows]. *)
Definition find_notify_target (check_in_iso : stamp) (checkout_dt : Z)
    (checking_out_member : Member.t) (members : list Member.t) (rows : list Row.t)
    : string :=
  match check_in_iso with
  | Garbage _ => lead_or_admin checking_out_member
  | Iso session_start =>
      match py_min_by key_lt
              (co_present members (Member.member_name checking_out_member)
                          session_start checkout_dt rows) with
      | Some best => Member.slack_id best
      | None => lead_or_admin checking_out_member
      end
  end.

(** [is_authorized_approver] *)
Definition is_authorized_approver (approver_id target_name : string)
    (members : list Member.t) : bool :=
  match members_get members approver_id with
  | None => false
  | Some approver =>
      match find (fun m => same_name (Member.member_name m) target_name) members with
      | None => false
      | Some target =>
          (get_seniority approver <? get_seniority target)
          || String.eqb (strip (Member.lead_slack_id target)) approver_id
      end
  end.

(** ** Command handlers

    The bot's state: the ledger on disk and [CURRENT_MEMBERS].  Replies and
    Slack posts other than the notification recipient are not modelled;
    a failing [append_session] (an I/O error) is not modelled either. *)

Record state := St {
  ledger : list Row.t;
  current : gset string
}.

Inductive check_in_result :=
| AlreadyCheckedIn
| CheckedIn (was_empty : bool).

(** [handle_check_in event member] at time [now]. *)
Definition handle_check_in (member : Member.t) (now : Z) (st : state)
    : check_in_result * state :=
  let name := Member.member_name member in
  let card_uid := Member.card_uid member in
  match get_open_session card_uid (ledger st) with
  | Some _ => (AlreadyCheckedIn, st)
  | None =>
      if bool_decide (name ∈ current st) then (AlreadyCheckedIn, st)
      else
        let was_empty := bool_decide (current st = ∅) in
        (CheckedIn was_empty,
         St (ledger st ++ [new_session card_uid name now]) ({[name]} ∪ current st))
  end.

Inductive check_out_result :=
| Inconsistency
| NotCheckedIn
| CheckedOut (hrs : Q) (notify_id : option string) (shop_closed : bool).

(** [handle_check_out event member] at time [checkout_time], with
    [members = load_members()]. *)
Definition handle_check_out (member : Member.t) (members : list Member.t)
    (checkout_time : Z) (st : state) : check_out_result * state :=
  let name := Member.member_name member in
  let card_uid := Member.card_uid member in
  match close_open_session card_uid name checkout_time (ledger st) with
  | (None, _) =>
      if bool_decide (name ∈ current st)
      then (Inconsistency, St (ledger st) (current st ∖ {[name]}))
      else (NotCheckedIn, st)
  | (Some (hours, check_in_iso), written) =>
      let rows := match written with Some l => l | None => ledger st end in
      let hrs := match check_in_iso with
                 | Iso t => py_round 2 (hours_between t checkout_time)
                 | Garbage _ => py_round 2 hours
                 end in
      let current' := current st ∖ {[name]} in
      let notify_id :=
        if bool_decide (current' = ∅)
        then Some (find_notify_target check_in_iso checkout_time member members rows)
        else find_most_senior_in_shop members current' name in
      (CheckedOut hrs notify_id (bool_decide (current' = ∅)), St rows current')
  end.






(** ** Approval commands ([handle_approve_disapprove]) *)

Inductive approve_result :=
| PendingUnauthorized
| NoPending (target_name : string)
| PendingList (target_name : string) (pending : list (nat * Row.t))
| AllUnauthorized
| ApprovedAll (target_name : string) (count : nat)
| BadSessionNumber
| NumberUnauthorized
| InvalidSessionNumber (target_name : string) (npending : nat)
| ApprovedOne (session_num : Z) (ok : bool)
| RemovedOne (session_num : Z) (ok : bool)
| ApproveUsage
(** an exception escapes the handler ([IndexError], [ValueError]) *)
| ApproveRaised.

(** [handle_approve_disapprove event slack_id text members] against the
    ledger [rows]: the reply and the rows written, if any. *)
Definition handle_approve_disapprove (slack_id text : string) (members : list Member.t)
    (rows : list Row.t) : approve_result * option (list Row.t) :=
  let parts := py_split text in
  match parts with
  | [] => (ApproveRaised, None)
  | p0 :: _ =>
      let cmd := lower p0 in
      let n := length parts in
      if (3 <=? n)%nat && String.eqb (lower (nth 1 parts "")) "pending" then
        let target_name := py_join " " (skipn 2 parts) in
        if negb (is_authorized_approver slack_id target_name members)
        then (PendingUnauthorized, None)
        else match get_unapproved_sessions target_name rows with
             | [] => (NoPending target_name, None)
             | pending => (PendingList target_name pending, None)
             end
      else if String.eqb cmd "approve" && (3 <=? n)%nat
              && String.eqb (lower (nth 1 parts "")) "all" then
        let target_name := py_join " " (skipn 2 parts) in
        if negb (is_authorized_approver slack_id target_name members)
        then (AllUnauthorized, None)
        else let '(count, written) := approve_all_sessions target_name rows in
             (ApprovedAll target_name count, written)
      else if (3 <=? n)%nat && py_isdigit (List.last parts "") then
        match py_int (List.last parts "") with
        | None => (ApproveRaised, None)
        | Some session_num =>
            let target_name := py_join " " (firstn (n - 2) (skipn 1 parts)) in
            if session_num <=? 0 then (BadSessionNumber, None)
            else if negb (is_authorized_approver slack_id target_name members)
            then (NumberUnauthorized, None)
            else
              let pending := get_unapproved_sessions target_name rows in
              if Z.of_nat (length pending) <? session_num
              then (InvalidSessionNumber target_name (length pending), None)
              else match pending !! Z.to_nat (session_num - 1) with
                   | None => (ApproveRaised, None)
                   | Some (global_index, _) =>
                       if String.eqb cmd "approve"
                       then let '(ok, w) := approve_session (Z.of_nat global_index) rows in
                            (ApprovedOne session_num ok, w)
                       else let '(ok, w) := delete_session (Z.of_nat global_index) rows in
                            (RemovedOne session_num ok, w)
                   end
        end
      else (ApproveUsage, None)
  end.

(** ** [handle_admin_force_checkout] *)

Inductive force_result :=
| ForceUnauthorized
| ForceUsage
| ForceNoOpen (target_name : string)
| ForceClosed (target_name : string) (hrs : Q) (shop_closed : bool).

(** [handle_admin_force_checkout event slack_id parts members] at time
    [checkout_time]. *)
Definition handle_admin_force_checkout (slack_id : string) (parts : list string)
    (members : list Member.t) (checkout_time : Z) (st : state) : force_result * state :=
  let is_seniority_1 :=
    match members_get members slack_id with
    | Some approver => get_seniority approver =? 1
    | None => false
    end in
  let is_admin := String.eqb slack_id ADMIN_SLACK_ID in
  if negb is_seniority_1 && negb is_admin then (ForceUnauthorized, st)
  else if (length parts <? 4)%nat then (ForceUsage, st)
  else
    let target_name := py_join " " (skipn 3 parts) in
    match find_last_index
            (fun r => same_name (Row.member_name r) target_name && is_open r) (ledger st) with
    | None => (ForceNoOpen target_name, st)
    | Some i =>
        match ledger st !! i with
        | None => (ForceNoOpen target_name, st)
        | Some r =>
            let hrs := match Row.check_in r with
                       | Iso t1 => py_round 2 (hours_between t1 checkout_time)
                       | Garbage _ => 0%Q
                       end in
            let current' := current st ∖ {[target_name]} in
            (ForceClosed target_name hrs (bool_decide (current' = ∅)),
             St (<[i := close_row r checkout_time hrs]> (ledger st)) current')
        end
    end.

(** ** The event dispatcher ([process_message]) *)

(** The bot's whole mutable state: the ledger and [CURRENT_MEMBERS], and
    [USE_FORMAL_MODE]. *)
Record bot_state := Bot {
  bot_st : state;
  use_formal_mode : bool
}.

(** The fields of a Socket Mode request that [process_message] reads; a
    missing [type], [text], [user] or [channel_type] is [""] (for [user]
    and [channel_type] Python's [None] behaves as [""] does here). *)
Record message := Message {
  req_type : string;
  ev_type : string;
  has_bot_id : bool;
  ev_text : string;
  ev_user : string;
  ev_channel_type : string
}.

Inductive outcome :=
| Ignored
| ChannelWhoIsIn
| ChannelIsShopOpen
| NotRegistered
| DidCheckIn (r : check_in_result)
| DidCheckOut (r : check_out_result)
| DidForce (r : force_result)
| UnknownAdmin
| DidApprove (r : approve_result)
| DidFormal (ok : bool)
| DidCasual (ok : bool)
| IsShopOpen
| WhoIsIn
| Help.

Definition with_st (b : bot_state) (st : state) : bot_state := Bot st (use_formal_mode b).

(** [process_message client req] at time [now], with
    [members = load_members()]. *)
Definition process_message (m : message) (members : list Member.t) (now : Z)
    (b : bot_state) : outcome * bot_state :=
  if negb (String.eqb (req_type m) "events_api") then (Ignored, b) else
  if negb (String.eqb (ev_type m) "message") || has_bot_id m then (Ignored, b) else
  let text := strip (ev_text m) in
  let text_lc := lower text in
  let slack_id := ev_user m in
  let channel_type := ev_channel_type m in
  if String.eqb channel_type "channel" || String.eqb channel_type "group" then
    if existsb (fun p => py_contains p text_lc)
         ["who is in shop"; "who's in shop"; "who is in the shop"; "who's in the shop"]
    then (ChannelWhoIsIn, b)
    else if py_contains "is shop open" text_lc || py_contains "is the shop open" text_lc
    then (ChannelIsShopOpen, b)
    else (Ignored, b)
  else if negb (String.eqb channel_type "im") || String.eqb slack_id "" then (Ignored, b) else
  match members_get members slack_id with
  | None => (NotRegistered, b)
  | Some member =>
      let parts := py_split text_lc in
      if py_contains "check in" text_lc then
        let '(r, st') := handle_check_in member now (bot_st b) in (DidCheckIn r, with_st b st')
      else if py_contains "check out" text_lc then
        let '(r, st') := handle_check_out member members now (bot_st b) in
        (DidCheckOut r, with_st b st')
      else if String.prefix "admin " text_lc then
        if (3 <=? length parts)%nat && String.eqb (nth 1 parts "") "force"
           && String.eqb (nth 2 parts "") "checkout"
        then let '(r, st') := handle_admin_force_checkout slack_id parts members now (bot_st b) in
             (DidForce r, with_st b st')
        else (UnknownAdmin, b)
      else if String.prefix "approve " text_lc || String.prefix "disapprove " text_lc then
        let '(r, w) := handle_approve_disapprove slack_id text members (ledger (bot_st b)) in
        (DidApprove r,
         with_st b (St (match w with Some l => l | None => ledger (bot_st b) end)
                       (current (bot_st b))))
      else if String.eqb text_lc "announcement formal" then
        if String.eqb slack_id ADMIN_SLACK_ID then (DidFormal true, Bot (bot_st b) true)
        else (DidFormal false, b)
      else if String.eqb text_lc "announcement casual" then
        if String.eqb slack_id ADMIN_SLACK_ID then (DidCasual true, Bot (bot_st b) false)
        else (DidCasual false, b)
      else if py_contains "is shop open" text_lc || py_contains "is the shop open" text_lc
      then (IsShopOpen, b)
      else if py_contains "who is in" text_lc || py_contains "who's in" text_lc
      then (WhoIsIn, b)
      else (Help, b)
  end.

(** ** Vocabulary of the properties *)

(** [i] is the highest index of [l] whose element satisfies [p], and [x]
    is that element. *)
Definition last_match {A} (p : A -> bool) (l : list A) (i : nat) (x : A) : Prop :=
  l !! i = Some x /\ p x = true /\
  (forall j y, (i < j)%nat -> l !! j = Some y -> p y = false).

(** The open session that [rebuild_current_members] acts on for the
    stripped name [n] when it scans [l]: the first open row of [l] whose
    stripped name is [n]. *)
Definition first_open (n : string) (l : list Row.t) : option Row.t :=
  find (fun r => is_open r && String.eqb (strip (Row.member_name r)) n) l.

Definition stale_names (l : list (string * stamp * Q)) : list string :=
  map (fun e => e.1.1) l.

(** The order of [find_most_senior_in_shop]'s key, non-strict:
    [(get_seniority(a), a["member_name"]) <= (get_seniority(b), b["member_name"])]. *)
Definition key_leb (a b : Member.t) : bool :=
  (get_seniority a <? get_seniority b)
  || ((get_seniority a =? get_seniority b)
      && String.leb (Member.member_name a) (Member.member_name b)).

(** A registered row of [find_notify_target]'s scan that overlaps the
    departing session: another member's row (names compared stripped and
    lower-cased) whose name is registered, whose check-in lies in the 24-hour
    lookback window before [checkout_dt], and that was still open at
    [checkout_dt] or closed after [session_start]. *)
Definition overlapping_row (members : list Member.t) (exclude_name : string)
    (session_start checkout_dt : Z) (r : Row.t) : Prop :=
  lower (strip (Row.member_name r)) <> lower (strip exclude_name) /\
  (exists x, x ∈ members /\
     lower (strip (Member.member_name x)) = lower (strip (Row.member_name r))) /\
  exists ci, Row.check_in r = Iso ci /\ checkout_dt - 24 * us_per_hour <= ci /\
    ci < checkout_dt /\
    (Row.check_out r = None \/
     exists co, Row.check_out r = Some (Iso co) /\ session_start < co).




(** Two registered members used in the examples. *)
Definition ann : Member.t := Member.mk "UANN" "Ann" "CA" (Some 1) "".
Definition bob : Member.t := Member.mk "UBOB" "Bob" "CB" (Some 3) "ULEAD".

(** * Properties *)

(** ** Reverse scans *)


Lemma find_last_index_none {A} (p : A -> bool) (l : list A) :
  (forall y, y ∈ l -> p y = false) -> find_last_index p l = None.
Proof.
  induction l as [|x xs IH]; intros Hl; simpl; [done|].
  rewrite IH by (intros y Hy; apply Hl; set_solver).
  rewrite (Hl x) by set_solver. done.
Qed.

Lemma find_last_index_last_match {A} (p : A -> bool) (l : list A) i x :
  last_match p l i x -> find_last_index p l = Some i.
Proof.
  revert i. induction l as [|y ys IH]; intros i (Hi & Hp & Hlater); [done|].
  destruct i as [|i]; simpl in *.
  - injection Hi as ->.
    rewrite find_last_index_none; [by rewrite Hp|].
    intros z Hz. apply list_elem_of_lookup in Hz as [j Hj].
    apply (Hlater (S j)); [lia|done].
  - rewrite (IH i); [done|]. split_and!; [done|done|].
    intros j z ? ?. apply (Hlater (S j)); [lia|done].
Qed.

Lemma find_rev_none_iff {A} (f : A -> bool) (l : list A) :
  find f (rev l) = None <-> forall y, y ∈ l -> f y = false.
Proof.
  split.
  - intros Hn y Hy. apply (find_none f (rev l) Hn).
    rewrite <- in_rev. by apply list_elem_of_In.
  - intros Hl. destruct (find f (rev l)) as [z|] eqn:Hf; [|done].
    apply find_some in Hf as [Hz Hfz].
    rewrite <- in_rev in Hz. rewrite Hl in Hfz; [done|].
    by apply list_elem_of_In.
Qed.

(** ** Check-in and check-out lookups *)

(** C5: [checkIn] is refused, and neither the ledger nor [CURRENT_MEMBERS]
    changes, as soon as the ledger holds an open session with the member's
    card or [CURRENT_MEMBERS] contains the member's name; either condition
    alone suffices. *)
Theorem check_in_already_checked_in (m : Member.t) (now : Z) (st : state)
  (Hblock : (exists r, r ∈ ledger st /\ Row.card_uid r = Member.card_uid m
                       /\ is_open r = true)
            \/ Member.member_name m ∈ current st) :
  handle_check_in m now st = (AlreadyCheckedIn, st).
Proof.
  unfold handle_check_in.
  destruct (get_open_session _ _) eqn:Hg; [done|].
  rewrite bool_decide_true; [done|].
  destruct Hblock as [(r & Hr & Hc & Ho)|]; [|done].
  unfold get_open_session in Hg.
  apply (proj1 (find_rev_none_iff _ _)) with (y := r) in Hg; [|done].
  rewrite Hc, String.eqb_refl, Ho in Hg. done.
Qed.

Lemma check_in_already_checked_in_witness :
  let st := St [new_session "CA" "Ann" 0] ∅ in
  handle_check_in ann 5 st = (AlreadyCheckedIn, st).
Proof.
  intros st. apply check_in_already_checked_in.
  left. exists (new_session "CA" "Ann" 0). split; [set_solver|done].
Defined.

Lemma close_open_session_at (card_uid member_name : string) (now : Z)
    (rows : list Row.t) i r :
  (find_last_index (fun r => String.eqb (Row.card_uid r) card_uid && is_open r) rows
   = Some i
   \/ (find_last_index (fun r => String.eqb (Row.card_uid r) card_uid && is_open r) rows
       = None
       /\ find_last_index (fun r => same_name (Row.member_name r) member_name && is_open r)
            rows = Some i)) ->
  rows !! i = Some r ->
  exists h, close_open_session card_uid member_name now rows
            = (Some (h, Row.check_in r), Some (<[i := close_row r now h]> rows)).
Proof.
  intros Hfind Hi. unfold close_open_session.
  destruct Hfind as [->|[-> ->]]; rewrite Hi; eexists; reflexivity.
Qed.

(** C4: [checkOut] closes the highest-index open session with the member's
    card; when there is none, the highest-index open session whose name
    matches the member's after [strip().lower()]; when neither exists it
    leaves the ledger alone and either drops the member from
    [CURRENT_MEMBERS] and reports the inconsistency (if the member was
    marked present) or reports "not checked in" (state unchanged). *)
Theorem check_out_lookup (m : Member.t) (members : list Member.t) (now : Z) (st : state) :
  let pc := fun r => String.eqb (Row.card_uid r) (Member.card_uid m) && is_open r in
  let pn := fun r => same_name (Row.member_name r) (Member.member_name m) && is_open r in
  (forall i r, last_match pc (ledger st) i r ->
     exists h, close_open_session (Member.card_uid m) (Member.member_name m) now (ledger st)
               = (Some (h, Row.check_in r), Some (<[i := close_row r now h]> (ledger st)))) /\
  ((forall r, r ∈ ledger st -> pc r = false) ->
   forall i r, last_match pn (ledger st) i r ->
     exists h, close_open_session (Member.card_uid m) (Member.member_name m) now (ledger st)
               = (Some (h, Row.check_in r), Some (<[i := close_row r now h]> (ledger st)))) /\
  ((forall r, r ∈ ledger st -> pc r = false /\ pn r = false) ->
   handle_check_out m members now st =
     if bool_decide (Member.member_name m ∈ current st)
     then (Inconsistency, St (ledger st) (current st ∖ {[Member.member_name m]}))
     else (NotCheckedIn, st)).
Proof.
  cbv zeta. split_and!.
  - intros i r Hl. apply (close_open_session_at _ _ _ _ i r); [|apply Hl].
    left. by eapply find_last_index_last_match.
  - intros Hnone i r Hl. apply (close_open_session_at _ _ _ _ i r); [|apply Hl].
    right. split; [by apply find_last_index_none|by eapply find_last_index_last_match].
  - intros Hnone. unfold handle_check_out, close_open_session.
    rewrite !find_last_index_none
      by (intros y Hy; by destruct (Hnone y Hy)).
    destruct st; done.
Qed.

(** ** Approve-all *)

Lemma approve_loop_eq (member_name : string) (rows : list Row.t) :
  let sel := fun r => same_name (Row.member_name r) member_name && is_pending r in
  approve_loop member_name rows
  = (map (fun r => if sel r then approve_row r else r) rows, length (List.filter sel rows)).
Proof.
  cbv zeta. induction rows as [|r rs IH]; [done|]. simpl. rewrite IH.
  by destruct (same_name _ _ && is_pending r).
Qed.

(** C8: [approve_all_sessions] returns the number of the member's pending
    sessions; when it is positive it performs exactly one write, of the
    ledger with each of those sessions marked approved and every other row
    as it was, after which the member has no pending session; when it is
    zero it returns 0 and performs no write, so the stored ledger is
    unchanged. *)
Theorem approve_all_sessions_spec (member_name : string) (rows : list Row.t) :
  let sel := fun r => same_name (Row.member_name r) member_name && is_pending r in
  (fst (approve_all_sessions member_name rows) = length (List.filter sel rows)) /\
  (length (List.filter sel rows) = O -> approve_all_sessions member_name rows = (O, None)) /\
  (length (List.filter sel rows) <> O ->
   exists rows',
     approve_all_sessions member_name rows = (length (List.filter sel rows), Some rows') /\
     rows' = map (fun r => if sel r then approve_row r else r) rows /\
     (forall r, r ∈ rows' -> sel r = false)).
Proof.
  cbv zeta. unfold approve_all_sessions. rewrite approve_loop_eq. cbv zeta.
  split_and!.
  - by destruct (length _).
  - by intros ->.
  - intros Hn. destruct (length _) as [|c] eqn:Hc; [done|].
    eexists. split_and!; [reflexivity|reflexivity|].
    intros r Hr. apply list_elem_of_In, in_map_iff in Hr as (r0 & <- & _).
    destruct (same_name (Row.member_name r0) member_name && is_pending r0) eqn:Hs.
    + unfold approve_row, is_pending. simpl. by rewrite andb_false_r.
    + exact Hs.
Qed.

(** ** Approval authority *)

Lemma find_first_match {A} (f : A -> bool) (l : list A) k x :
  l !! k = Some x -> f x = true ->
  (forall k' y, (k' < k)%nat -> l !! k' = Some y -> f y = false) ->
  find f l = Some x.
Proof.
  revert k. induction l as [|y ys IH]; intros k Hk Hx Hbefore; [done|].
  destruct k as [|k]; simpl in *.
  - injection Hk as ->. by rewrite Hx.
  - rewrite (Hbefore O y) by (done || lia).
    apply (IH k); [done|done|]. intros k' z ? ?. apply (Hbefore (S k')); [lia|done].
Qed.

Lemma find_none_all {A} (f : A -> bool) (l : list A) :
  (forall y, y ∈ l -> f y = false) -> find f l = None.
Proof.
  induction l as [|y ys IH]; intros Hl; simpl; [done|].
  rewrite (Hl y) by set_solver. apply IH. intros z Hz. apply Hl. set_solver.
Qed.

(** C6: an approver unknown to the registry, or a target name matching no
    member, is never authorized; otherwise, with [target] the first member
    whose name matches [target_name] after [strip().lower()], the approver
    is authorized exactly when its seniority rank is strictly lower than
    the target's or its handle equals the target's registered lead; in
    particular a rank-2 approver acting on a rank-1 member is authorized
    only as that member's lead. *)
Theorem is_authorized_approver_spec (approver_id target_name : string)
    (members : list Member.t) :
  ((forall m, m ∈ members -> Member.slack_id m <> approver_id) ->
   is_authorized_approver approver_id target_name members = false) /\
  ((forall m, m ∈ members -> same_name (Member.member_name m) target_name = false) ->
   is_authorized_approver approver_id target_name members = false) /\
  (forall approver target k,
     members_get members approver_id = Some approver ->
     members !! k = Some target ->
     same_name (Member.member_name target) target_name = true ->
     (forall k' m', (k' < k)%nat -> members !! k' = Some m' ->
                    same_name (Member.member_name m') target_name = false) ->
     (is_authorized_approver approver_id target_name members = true <->
      get_seniority approver < get_seniority target
      \/ strip (Member.lead_slack_id target) = approver_id) /\
     (get_seniority approver = 2 -> get_seniority target = 1 ->
      is_authorized_approver approver_id target_name members = true <->
      strip (Member.lead_slack_id target) = approver_id)).
Proof.
  unfold is_authorized_approver, members_get. split_and!.
  - intros Hno. rewrite find_none_all; [done|].
    intros m Hm. apply String.eqb_neq. by apply Hno.
  - intros Hno. destruct (find _ members); [|done].
    by rewrite find_none_all.
  - intros approver target k Ha Hk Hs Hbefore.
    rewrite Ha, (find_first_match _ _ k target) by done.
    rewrite orb_true_iff, Z.ltb_lt, String.eqb_eq. split; [done|].
    intros H2 H1. rewrite H2, H1. split; [intros [?|?]; [lia|done]|by right].
Qed.

(** ** Startup reconciliation *)


Lemma rebuild_step_closed now acc r :
  is_open r = false -> rebuild_step now acc r = acc.
Proof. intros Ho. unfold rebuild_step. by rewrite Ho. Qed.

Lemma rebuild_step_seen now acc r :
  is_open r = true -> strip (Row.member_name r) ∈ seen_names acc ->
  rebuild_step now acc r = acc.
Proof. intros Ho Hs. unfold rebuild_step. rewrite Ho. simpl. by rewrite bool_decide_true. Qed.

Lemma rebuild_step_new now acc r :
  is_open r = true -> strip (Row.member_name r) ∉ seen_names acc ->
  let name := strip (Row.member_name r) in
  let age := age_hours (Row.check_in r) now in
  rebuild_step now acc r =
    if is_stale_age age
    then RebuildAcc ({[name]} ∪ seen_names acc) (cur acc) (recovered acc)
                    (stale acc ++ [(name, Row.check_in r, py_round 1 age)])
    else RebuildAcc ({[name]} ∪ seen_names acc) ({[name]} ∪ cur acc)
                    (recovered acc ++ [name]) (stale acc).
Proof. intros Ho Hs. unfold rebuild_step. rewrite Ho. simpl. by rewrite bool_decide_false. Qed.

Lemma union_singleton_ne (m n : string) (X : gset string) :
  m <> n -> n ∈ {[m]} ∪ X <-> n ∈ X.
Proof. set_solver. Qed.
Lemma not_union_singleton_ne (m n : string) (X : gset string) :
  m <> n -> n ∉ {[m]} ∪ X <-> n ∉ X.
Proof. set_solver. Qed.
Lemma app_singleton_ne (m n : string) (L : list string) :
  m <> n -> n ∈ L ++ [m] <-> n ∈ L.
Proof. set_solver. Qed.
Lemma union_singleton_self (m : string) (X : gset string) : m ∈ {[m]} ∪ X <-> True.
Proof. set_solver. Qed.
Lemma not_union_singleton_self (m : string) (X : gset string) : m ∉ {[m]} ∪ X <-> False.
Proof. set_solver. Qed.
Lemma app_singleton_self (m : string) (L : list string) : m ∈ L ++ [m] <-> True.
Proof. set_solver. Qed.
Lemma exists_some_eq {A} (x : A) (P : A -> Prop) : (exists y, Some x = Some y /\ P y) <-> P x.
Proof. split; [intros (y & [= <-] & ?)|intros ?; exists x]; done. Qed.

Lemma rebuild_fold_spec (now : Z) (l : list Row.t) (acc : rebuild_acc) (n : string) :
  let acc' := fold_left (rebuild_step now) l acc in
  let decided b := (n ∉ seen_names acc) /\ (exists r, first_open n l = Some r
                     /\ is_stale_age (age_hours (Row.check_in r) now) = b) in
  (n ∈ cur acc' <-> n ∈ cur acc \/ decided false) /\
  (n ∈ recovered acc' <-> n ∈ recovered acc \/ decided false) /\
  (n ∈ stale_names (stale acc') <-> n ∈ stale_names (stale acc) \/ decided true).
Proof.
  cbv zeta. revert acc. induction l as [|r l IH]; intros acc; simpl.
  { split_and!; split; (intros [?|(_ & ? & ? & _)]; [done|discriminate]) || auto. }
  unfold first_open at 1 2 3. simpl. fold (first_open n l).
  destruct (is_open r) eqn:Ho; simpl; [|rewrite rebuild_step_closed by done; apply IH].
  destruct (decide (strip (Row.member_name r) ∈ seen_names acc)) as [Hs|Hs].
  - rewrite rebuild_step_seen by done.
    destruct (String.eqb_spec (strip (Row.member_name r)) n) as [<-|Hmn]; [|apply IH].
    destruct (IH acc) as (H1 & H2 & H3).
    rewrite H1, H2, H3. split_and!; split; intros [?|(? & _)]; auto; done.
  - rewrite rebuild_step_new by done. cbv zeta.
    set (m := strip (Row.member_name r)) in *.
    destruct (is_stale_age (age_hours (Row.check_in r) now)) eqn:Hst;
      match goal with |- context [fold_left _ l ?a] => destruct (IH a) as (H1 & H2 & H3) end;
      simpl in H1, H2, H3; rewrite H1, H2, H3;
      unfold stale_names; rewrite ?map_app; simpl; fold (stale_names (stale acc));
      rewrite ?list_elem_of_app, ?list_elem_of_singleton;
      destruct (String.eqb_spec m n) as [<-|Hmn].
    all: split_and!.
    all: try (rewrite ?union_singleton_ne, ?not_union_singleton_ne, ?app_singleton_ne by done;
              apply iff_refl).
    all: rewrite ?union_singleton_self, ?not_union_singleton_self, ?app_singleton_self,
           ?exists_some_eq; try rewrite Hst.
    all: intuition congruence.
Qed.


Lemma find_app_some {A} (f : A -> bool) (l1 l2 : list A) x :
  find f l1 = Some x -> find f (l1 ++ l2) = Some x.
Proof. induction l1 as [|y ys IH]; simpl; [done|]. by destruct (f y). Qed.

Lemma find_app_none {A} (f : A -> bool) (l1 l2 : list A) :
  find f l1 = None -> find f (l1 ++ l2) = find f l2.
Proof. induction l1 as [|y ys IH]; simpl; [done|]. by destruct (f y). Qed.

(** The reverse scan finds the highest-index match. *)
Lemma find_rev_last_match {A} (p : A -> bool) (l : list A) i x :
  last_match p l i x -> find p (rev l) = Some x.
Proof.
  revert i. induction l as [|y ys IH] using rev_ind; intros i (Hi & Hp & Hlater);
    [done|].
  rewrite rev_app_distr. simpl.
  destruct (decide (i = length ys)) as [->|Hne].
  - rewrite list_lookup_middle in Hi by done. injection Hi as ->. by rewrite Hp.
  - assert (i < length ys)%nat as Hlt.
    { apply lookup_lt_Some in Hi. rewrite length_app in Hi. simpl in Hi. lia. }
    rewrite (Hlater (length ys) y) by (lia || by rewrite list_lookup_middle).
    apply (IH i). split_and!.
    + by rewrite lookup_app_l in Hi.
    + done.
    + intros j z ? Hj. apply (Hlater j); [lia|]. rewrite lookup_app_l; [done|].
      by apply lookup_lt_Some in Hj.
Qed.

(** The session of [r] is the one reconciliation acts on for its stripped
    name when no later row of the ledger is an open session with the same
    stripped name. *)
Lemma first_open_last (rows : list Row.t) i r :
  rows !! i = Some r -> is_open r = true ->
  (forall j r', (i < j)%nat -> rows !! j = Some r' -> is_open r' = true ->
                strip (Row.member_name r') <> strip (Row.member_name r)) ->
  first_open (strip (Row.member_name r)) (rev rows) = Some r.
Proof.
  intros Hi Ho Hlater. apply (find_rev_last_match _ _ i). split_and!.
  - done.
  - by rewrite Ho, String.eqb_refl.
  - intros j r' ? Hj. destruct (is_open r') eqn:Ho'; [|done]. simpl.
    apply String.eqb_neq. by apply (Hlater j).
Qed.

(** C10: during startup reconciliation an open session whose check-in cell
    [fromisoformat] rejects gets age 0: when it is the session that
    reconciliation acts on for its member (no later open row with the same
    stripped name), the member is restored to [CURRENT_MEMBERS], listed as
    recovered and not flagged stale, however late [now] is. *)
Theorem rebuild_unparseable_check_in (rows : list Row.t) (now : Z) (i : nat) (r : Row.t)
    (s : string)
    (Hi : rows !! i = Some r) (Ho : is_open r = true) (Hci : Row.check_in r = Garbage s)
    (Hlater : forall j r', (i < j)%nat -> rows !! j = Some r' -> is_open r' = true ->
                           strip (Row.member_name r') <> strip (Row.member_name r)) :
  let '(present, restored, flagged) := rebuild_current_members rows now ∅ in
  strip (Row.member_name r) ∈ present /\ strip (Row.member_name r) ∈ restored /\
  strip (Row.member_name r) ∉ stale_names flagged.
Proof.
  unfold rebuild_current_members.
  destruct (rebuild_fold_spec now (rev rows) (RebuildAcc ∅ ∅ [] [])
              (strip (Row.member_name r))) as (H1 & H2 & H3).
  simpl in H1, H2, H3. rewrite H1, H2, H3.
  rewrite (first_open_last rows i r) by done.
  rewrite !exists_some_eq, Hci. split_and!.
  - right. split; [set_solver|reflexivity].
  - right. split; [set_solver|reflexivity].
  - intros [Hn|(_ & Hst)]; [set_solver|]. vm_compute in Hst. discriminate.
Qed.

Lemma rebuild_unparseable_check_in_witness :
  let rows := [Row.mk "CA" "Ann" (Garbage "yesterday-ish") None 0%Q "False"] in
  let '(present, restored, flagged) := rebuild_current_members rows (10 ^ 15) ∅ in
  strip "Ann" ∈ present /\ strip "Ann" ∈ restored /\ strip "Ann" ∉ stale_names flagged.
Proof.
  intros rows.
  refine (rebuild_unparseable_check_in rows (10 ^ 15) O
            (Row.mk "CA" "Ann" (Garbage "yesterday-ish") None 0%Q "False")
            "yesterday-ish" eq_refl eq_refl eq_refl _).
  intros j r' Hj Hr'. exfalso. apply lookup_lt_Some in Hr'. unfold rows in Hr'. simpl in Hr'. lia.
Defined.




(** ** Duration of a closed session *)




(** ** Most senior member present *)

Lemma string_ltb_leb (a b : string) : String.ltb a b = negb (String.leb b a).
Proof.
  unfold String.ltb, String.leb. rewrite (String.compare_antisym b a).
  by destruct (String.compare a b).
Qed.

Lemma string_leb_refl (a : string) : String.leb a a = true.
Proof. pose proof (reflexivity (R := String.le) a) as H. by apply Is_true_true in H. Qed.

Lemma string_leb_trans (a b c : string) :
  String.leb a b = true -> String.leb b c = true -> String.leb a c = true.
Proof.
  intros Hab Hbc. apply Is_true_true. change (String.le a c).
  apply (transitivity (y := b)); unfold String.le; by apply Is_true_true.
Qed.

Lemma key_lt_leb (a b : Member.t) : key_lt a b = negb (key_leb b a).
Proof.
  unfold key_lt, key_leb. rewrite string_ltb_leb.
  destruct (Z.ltb_spec (get_seniority a) (get_seniority b)),
           (Z.ltb_spec (get_seniority b) (get_seniority a)),
           (Z.eqb_spec (get_seniority a) (get_seniority b)),
           (Z.eqb_spec (get_seniority b) (get_seniority a)); simpl; try lia;
    by destruct (String.leb _ _).
Qed.

Lemma key_leb_refl (a : Member.t) : key_leb a a = true.
Proof. unfold key_leb. by rewrite Z.eqb_refl, string_leb_refl, orb_true_r. Qed.

Lemma key_leb_total (a b : Member.t) : key_leb a b = false -> key_leb b a = true.
Proof.
  unfold key_leb. intros H.
  destruct (String.leb_total (Member.member_name a) (Member.member_name b)) as [Hs|Hs];
  destruct (Z.ltb_spec (get_seniority a) (get_seniority b)),
           (Z.ltb_spec (get_seniority b) (get_seniority a)),
           (Z.eqb_spec (get_seniority a) (get_seniority b)),
           (Z.eqb_spec (get_seniority b) (get_seniority a));
    rewrite ?Hs in H |- *; simpl in *; try lia; congruence.
Qed.

Lemma key_leb_trans (a b c : Member.t) :
  key_leb a b = true -> key_leb b c = true -> key_leb a c = true.
Proof.
  unfold key_leb. rewrite !orb_true_iff, !andb_true_iff, !Z.ltb_lt, !Z.eqb_eq.
  intros Hab Hbc.
  destruct Hab as [?|[? ?]], Hbc as [?|[? ?]]; try (left; lia).
  right. split; [lia|]. by eapply string_leb_trans.
Qed.

Lemma fold_min_spec (xs : list Member.t) (best : Member.t) :
  let b := fold_left (fun best y => if key_lt y best then y else best) xs best in
  (b = best \/ b ∈ xs) /\ key_leb b best = true /\ (forall y, y ∈ xs -> key_leb b y = true).
Proof.
  cbv zeta. revert best. induction xs as [|y ys IH]; intros best; simpl.
  { split_and!; [by left|apply key_leb_refl|set_solver]. }
  destruct (key_lt y best) eqn:Hlt;
    destruct (IH (if key_lt y best then y else best)) as (Hin & Hle & Hall);
    rewrite Hlt in Hin, Hle, Hall; rewrite key_lt_leb in Hlt.
  - apply negb_true_iff, key_leb_total in Hlt. split_and!.
    + destruct Hin as [->|?]; right; set_solver.
    + by eapply key_leb_trans.
    + intros z Hz. apply elem_of_cons in Hz as [->|Hz]; [done|by apply Hall].
  - apply negb_false_iff in Hlt. split_and!.
    + destruct Hin as [->|?]; [by left|right; set_solver].
    + done.
    + intros z Hz. apply elem_of_cons in Hz as [->|Hz]; [|by apply Hall].
      by eapply key_leb_trans.
Qed.

(** [min(l, key=...)] is an element of [l] whose key is at most every key of [l]. *)
Lemma py_min_by_spec (l : list Member.t) :
  l <> [] ->
  exists b, py_min_by key_lt l = Some b /\ b ∈ l /\ (forall y, y ∈ l -> key_leb b y = true).
Proof.
  destruct l as [|x xs]; [done|]. intros _. simpl.
  destruct (fold_min_spec xs x) as (Hin & Hle & Hall).
  eexists. split_and!; [reflexivity| |].
  - destruct Hin as [->|?]; set_solver.
  - intros y Hy. apply elem_of_cons in Hy as [->|Hy]; [done|by apply Hall].
Qed.

Lemma key_leb_spec (a b : Member.t) :
  key_leb a b = true <->
  get_seniority a < get_seniority b
  \/ (get_seniority a = get_seniority b
      /\ String.leb (Member.member_name a) (Member.member_name b) = true).
Proof. unfold key_leb. by rewrite orb_true_iff, andb_true_iff, Z.ltb_lt, Z.eqb_eq. Qed.

Lemma shop_candidates_spec (members : list Member.t) (cur : gset string)
    (ex : string) (y : Member.t) :
  y ∈ shop_candidates members cur ex <->
  y ∈ members /\ Member.member_name y ∈ cur /\ Member.member_name y <> ex.
Proof.
  unfold shop_candidates.
  rewrite !list_elem_of_In, filter_In, andb_true_iff, bool_decide_eq_true,
    negb_true_iff, String.eqb_neq.
  tauto.
Qed.

(** [find_most_senior_in_shop] picks, among the registered members whose
    name is in [cur] (the excluded name apart), one of least
    [(rank, name)]; it gives [None] exactly when there is none. *)
Lemma find_most_senior_in_shop_spec (members : list Member.t) (cur : gset string)
    (ex : string) :
  ((exists x, x ∈ members /\ Member.member_name x ∈ cur /\ Member.member_name x <> ex) ->
   exists best, find_most_senior_in_shop members cur ex = Some (Member.slack_id best) /\
     best ∈ members /\ Member.member_name best ∈ cur /\ Member.member_name best <> ex /\
     forall y, y ∈ members -> Member.member_name y ∈ cur -> Member.member_name y <> ex ->
       key_leb best y = true) /\
  ((forall x, x ∈ members -> Member.member_name x ∈ cur -> Member.member_name x = ex) ->
   find_most_senior_in_shop members cur ex = None).
Proof.
  unfold find_most_senior_in_shop. split.
  - intros (x & Hx).
    destruct (py_min_by_spec (shop_candidates members cur ex)) as (b & Hb & Hbin & Hall).
    { intros Hnil. apply (shop_candidates_spec members cur ex x) in Hx.
      rewrite Hnil in Hx. set_solver. }
    rewrite Hb. exists b. apply shop_candidates_spec in Hbin as (? & ? & ?).
    split_and!; try done.
    intros y ???. apply Hall, shop_candidates_spec. done.
  - intros Hnone. destruct (shop_candidates members cur ex) as [|y ys] eqn:Hc; [done|].
    exfalso. assert (y ∈ shop_candidates members cur ex) as Hy by (rewrite Hc; set_solver).
    apply shop_candidates_spec in Hy as (? & ? & Hne). by apply Hne, Hnone.
Qed.

(** The result of a successful check-out: the new [CURRENT_MEMBERS] is the
    old one without the departing name, and the notification target is the
    one computed from it. *)
Lemma handle_check_out_success (member : Member.t) (members : list Member.t)
    (now : Z) (st st' : state) (hrs : Q) (notify : option string) (closed : bool) :
  handle_check_out member members now st = (CheckedOut hrs notify closed, st') ->
  exists h ci w,
    close_open_session (Member.card_uid member) (Member.member_name member) now (ledger st)
      = (Some (h, ci), w) /\
    ledger st' = match w with Some l => l | None => ledger st end /\
    current st' = current st ∖ {[Member.member_name member]} /\
    closed = bool_decide (current st' = ∅) /\
    notify = if bool_decide (current st' = ∅)
             then Some (find_notify_target ci now member members (ledger st'))
             else find_most_senior_in_shop members (current st') (Member.member_name member).
Proof.
  unfold handle_check_out.
  destruct (close_open_session _ _ _ _) as [[[h ci]|] w] eqn:Hc.
  - intros [= <- <- <- <-]. exists h, ci, w. by split_and!.
  - by case_bool_decide.
Qed.

(** C7: after a successful check-out that leaves [CURRENT_MEMBERS]
    non-empty, the recipient is the Slack id of a registered member still
    present whose (seniority rank, name) is least: every other registered
    member present has a greater rank, or the same rank and a name that is
    not lexicographically smaller.  When none of the names left is a
    registered member there is no recipient. *)
Theorem check_out_most_senior_present (member : Member.t) (members : list Member.t)
    (now : Z) (st st' : state) (hrs : Q) (notify : option string) (closed : bool)
    (Hout : handle_check_out member members now st = (CheckedOut hrs notify closed, st'))
    (Hne : current st' <> ∅) :
  current st' = current st ∖ {[Member.member_name member]} /\
  ((exists x, x ∈ members /\ Member.member_name x ∈ current st') ->
   exists best, notify = Some (Member.slack_id best) /\ best ∈ members /\
     Member.member_name best ∈ current st' /\
     forall y, y ∈ members -> Member.member_name y ∈ current st' ->
       get_seniority best < get_seniority y
       \/ (get_seniority best = get_seniority y
           /\ String.leb (Member.member_name best) (Member.member_name y) = true)) /\
  ((forall x, x ∈ members -> Member.member_name x ∉ current st') -> notify = None).
Proof.
  apply handle_check_out_success in Hout
    as (h & ci & w & Hc & Hl & Hcur & Hclosed & Hnotify).
  rewrite bool_decide_eq_false_2 in Hnotify by done.
  pose proof (find_most_senior_in_shop_spec members (current st') (Member.member_name member))
    as [Hsome Hnone].
  assert (forall x, Member.member_name x ∈ current st' ->
            Member.member_name x <> Member.member_name member) as Hex
    by (intros x; rewrite Hcur; set_solver).
  split_and!; [done| |].
  - intros (x & Hx & Hxc). destruct Hsome as (b & Hb & Hbm & Hbc & _ & Hall).
    { exists x. eauto. }
    exists b. rewrite Hnotify. split_and!; try done.
    intros y ??. apply key_leb_spec, Hall; eauto.
  - intros Hno. rewrite Hnotify. apply Hnone. intros x ? Hxc. by destruct (Hno x).
Qed.

Lemma check_out_most_senior_present_witness :
  handle_check_out bob [ann; bob] 100
    (St [new_session "CA" "Ann" 0; new_session "CB" "Bob" 0] {["Ann"; "Bob"]})
  = (CheckedOut (py_round 2 (hours_between 0 100)) (Some "UANN") false,
     St [new_session "CA" "Ann" 0; Row.mk "CB" "Bob" (Iso 0) (Some (Iso 100)) (py_round 2 (hours_between 0 100)) "False"] {["Ann"]}) /\
  (current (St [new_session "CA" "Ann" 0; Row.mk "CB" "Bob" (Iso 0) (Some (Iso 100)) (py_round 2 (hours_between 0 100)) "False"] {["Ann"]})
     = {["Ann"; "Bob"]} ∖ {[Member.member_name bob]} /\
   ((exists x, x ∈ [ann; bob] /\ Member.member_name x ∈ ({["Ann"]} : gset string)) ->
    exists best, Some "UANN" = Some (Member.slack_id best) /\ best ∈ [ann; bob] /\
      Member.member_name best ∈ ({["Ann"]} : gset string) /\
      forall y, y ∈ [ann; bob] -> Member.member_name y ∈ ({["Ann"]} : gset string) ->
        get_seniority best < get_seniority y
        \/ (get_seniority best = get_seniority y
            /\ String.leb (Member.member_name best) (Member.member_name y) = true)) /\
   ((forall x, x ∈ [ann; bob] -> Member.member_name x ∉ ({["Ann"]} : gset string)) ->
    Some "UANN" = None)).
Proof.
  assert (Hout : handle_check_out bob [ann; bob] 100
    (St [new_session "CA" "Ann" 0; new_session "CB" "Bob" 0] {["Ann"; "Bob"]})
  = (CheckedOut (py_round 2 (hours_between 0 100)) (Some "UANN") false,
     St [new_session "CA" "Ann" 0; Row.mk "CB" "Bob" (Iso 0) (Some (Iso 100)) (py_round 2 (hours_between 0 100)) "False"] {["Ann"]}))
    by reflexivity.
  split; [exact Hout|].
  exact (check_out_most_senior_present bob [ann; bob] 100 _ _ _ _ _ Hout
           ltac:(simpl; set_solver)).
Defined.

(** ** The escalation chain *)

Lemma collect_spec {A B} (f : A -> option B) (l : list A) (y : B) :
  y ∈ collect f l <-> exists x, x ∈ l /\ f x = Some y.
Proof.
  induction l as [|x xs IH]; simpl.
  - split; [set_solver|]. intros (x & Hx & _). set_solver.
  - destruct (f x) as [z|] eqn:Hfx.
    + rewrite elem_of_cons, IH. split.
      * intros [->|(x' & ? & ?)]; [by exists x; split; [left|]|].
        exists x'. split; [by right|done].
      * intros (x' & Hx' & Hf). apply elem_of_cons in Hx' as [->|Hx'].
        -- left. congruence.
        -- right. eauto.
    + rewrite IH. split.
      * intros (x' & ? & ?). exists x'. split; [by right|done].
      * intros (x' & Hx' & Hf). apply elem_of_cons in Hx' as [->|Hx']; [congruence|eauto].
Qed.

Lemma name_to_member_get_some (members : list Member.t) (k : string) (y : Member.t) :
  name_to_member_get members k = Some y ->
  y ∈ members /\ lower (strip (Member.member_name y)) = k.
Proof.
  unfold name_to_member_get. intros Hf. apply find_some in Hf as [Hin Heq].
  apply String.eqb_eq in Heq. split; [|done].
  apply list_elem_of_In. by apply in_rev.
Qed.

Lemma name_to_member_get_exists (members : list Member.t) (k : string) (x : Member.t) :
  x ∈ members -> lower (strip (Member.member_name x)) = k ->
  exists y, name_to_member_get members k = Some y.
Proof.
  unfold name_to_member_get. intros Hx Hk.
  destruct (find _ (rev members)) as [y|] eqn:Hf; [by exists y|].
  exfalso. apply list_elem_of_In, in_rev in Hx.
  pose proof (find_none _ _ Hf x Hx) as Hn. simpl in Hn.
  rewrite Hk, String.eqb_refl in Hn. discriminate.
Qed.

(** One iteration of [find_notify_target]'s scan appends a member exactly
    for a registered row that overlaps the departing session, and the member
    it appends is the one [name_to_member] maps the row's name to. *)
Lemma co_present_entry_spec (members : list Member.t) (ex : string) (t now : Z)
    (r : Row.t) (y : Member.t) :
  co_present_entry members ex t now r = Some y <->
  overlapping_row members ex t now r /\
  name_to_member_get members (lower (strip (Row.member_name r))) = Some y.
Proof.
  unfold co_present_entry, overlapping_row. cbv zeta. split.
  - intros H.
    destruct (String.eqb_spec (lower (strip (Row.member_name r))) (lower (strip ex)))
      as [|Hne]; [done|].
    destruct (name_to_member_get members _) as [mm|] eqn:Hg; [|done].
    destruct (name_to_member_get_some _ _ _ Hg) as [Hmm Hk].
    destruct (Row.check_in r) as [ci|s]; [|done].
    destruct (Z.ltb_spec ci (now - 24 * us_per_hour)); [done|].
    destruct (Row.check_out r) as [[co|s]|] eqn:Hco;
      [destruct (Z.ltb_spec ci now), (Z.ltb_spec t co); simpl in H| |
       destruct (Z.ltb_spec ci now)]; simplify_eq/=.
    + split; [|done]. split_and!; [done|by exists y|].
      exists ci. split_and!; [done|lia|done|]. right. by exists co.
    + split; [|done]. split_and!; [done|by exists y|].
      exists ci. split_and!; [done|lia|done|]. by left.
  - intros [(Hne & _ & ci & Hci & Hlo & Hhi & Hco) Hg].
    rewrite (proj2 (String.eqb_neq _ _) Hne), Hg, Hci, (proj2 (Z.ltb_ge _ _) Hlo).
    destruct Hco as [Hco|(co & Hco & Hlt)]; rewrite Hco, (proj2 (Z.ltb_lt _ _) Hhi);
      [done|]. by rewrite (proj2 (Z.ltb_lt _ _) Hlt).
Qed.

Lemma co_present_spec (members : list Member.t) (ex : string) (t now : Z)
    (rows : list Row.t) (y : Member.t) :
  y ∈ co_present members ex t now rows <->
  exists r, r ∈ rows /\ overlapping_row members ex t now r /\
    name_to_member_get members (lower (strip (Row.member_name r))) = Some y.
Proof.
  unfold co_present. rewrite collect_spec.
  split; intros (r & Hr & H); exists r; split; try done; by apply co_present_entry_spec.
Qed.

Lemma overlapping_row_resolves (members : list Member.t) (ex : string) (t now : Z)
    (r : Row.t) :
  overlapping_row members ex t now r ->
  exists y, name_to_member_get members (lower (strip (Row.member_name r))) = Some y.
Proof. intros (_ & (x & Hx & Hk) & _). by eapply name_to_member_get_exists. Qed.

(** [lead_id or ADMIN_SLACK_ID] is the stripped lead id when it is not
    empty, the administrator otherwise. *)
Lemma lead_or_admin_spec (m : Member.t) :
  (strip (Member.lead_slack_id m) <> "" -> lead_or_admin m = strip (Member.lead_slack_id m)) /\
  (strip (Member.lead_slack_id m) = "" -> lead_or_admin m = ADMIN_SLACK_ID).
Proof.
  unfold lead_or_admin. split; intros H.
  - by rewrite (proj2 (String.eqb_neq _ _) H).
  - by rewrite H.
Qed.

(** C3: the recipient of a successful check-out.  (1) While registered
    members remain in [CURRENT_MEMBERS], it is one of least (rank, name)
    among them; when names remain but none is registered there is no
    recipient, and the chain does not go on.  Once [CURRENT_MEMBERS] is
    empty there is exactly one recipient: (2) when the departing session's
    check-in parses and some registered row overlaps it in the 24-hour
    window, the member [name_to_member] maps such a row to, of least
    (rank, name) among all of them; (3)/(4) otherwise, and also whenever
    the check-in does not parse, the stripped lead id if it is not empty,
    else [ADMIN_SLACK_ID]. *)
Theorem check_out_escalation_chain (member : Member.t) (members : list Member.t)
    (now : Z) (st st' : state) (hrs : Q) (notify : option string) (closed : bool)
    (Hout : handle_check_out member members now st = (CheckedOut hrs notify closed, st')) :
  let name := Member.member_name member in
  let closing := close_open_session (Member.card_uid member) name now (ledger st) in
  (current st' <> ∅ ->
     ((exists x, x ∈ members /\ Member.member_name x ∈ current st') ->
      exists best, notify = Some (Member.slack_id best) /\ best ∈ members /\
        Member.member_name best ∈ current st' /\
        forall y, y ∈ members -> Member.member_name y ∈ current st' -> key_leb best y = true) /\
     ((forall x, x ∈ members -> Member.member_name x ∉ current st') -> notify = None)) /\
  (current st' = ∅ -> exists target, notify = Some target) /\
  (current st' = ∅ -> forall h s w, closing = (Some (h, Garbage s), w) ->
     notify = Some (lead_or_admin member)) /\
  (current st' = ∅ -> forall h t w, closing = (Some (h, Iso t), w) ->
     ((exists r, r ∈ ledger st' /\ overlapping_row members name t now r) ->
      exists best r0, notify = Some (Member.slack_id best) /\
        r0 ∈ ledger st' /\ overlapping_row members name t now r0 /\
        name_to_member_get members (lower (strip (Row.member_name r0))) = Some best /\
        forall r y, r ∈ ledger st' -> overlapping_row members name t now r ->
          name_to_member_get members (lower (strip (Row.member_name r))) = Some y ->
          key_leb best y = true) /\
     ((forall r, r ∈ ledger st' -> ~ overlapping_row members name t now r) ->
      notify = Some (lead_or_admin member))) /\
  (strip (Member.lead_slack_id member) <> "" ->
     lead_or_admin member = strip (Member.lead_slack_id member)) /\
  (strip (Member.lead_slack_id member) = "" -> lead_or_admin member = ADMIN_SLACK_ID).
Proof.
  cbv zeta.
  apply handle_check_out_success in Hout
    as (h0 & ci & w0 & Hc & Hl & Hcur & Hclosed & Hnotify).
  rewrite Hc.
  assert (forall x, Member.member_name x ∈ current st' ->
            Member.member_name x <> Member.member_name member) as Hex
    by (intros x; rewrite Hcur; set_solver).
  split_and!; [intros Hne|intros He..|apply lead_or_admin_spec|apply lead_or_admin_spec].
  - rewrite bool_decide_eq_false_2 in Hnotify by done.
    pose proof (find_most_senior_in_shop_spec members (current st') (Member.member_name member))
      as [Hsome Hnone].
    split.
    + intros (x & Hx & Hxc). destruct Hsome as (b & Hb & Hbm & Hbc & _ & Hall).
      { exists x. eauto. }
      exists b. rewrite Hnotify. split_and!; try done.
      intros y ??. apply Hall; eauto.
    + intros Hno. rewrite Hnotify. apply Hnone. intros x ? Hxc. by destruct (Hno x).
  - rewrite bool_decide_eq_true_2 in Hnotify by done. by eexists.
  - intros h s w [= -> -> ->].
    rewrite bool_decide_eq_true_2 in Hnotify by done. done.
  - intros h t w [= -> -> ->].
    rewrite bool_decide_eq_true_2 in Hnotify by done.
    rewrite Hnotify. unfold find_notify_target. split.
    + intros (r & Hr & Hov).
      destruct (overlapping_row_resolves _ _ _ _ _ Hov) as (y & Hy).
      destruct (py_min_by_spec (co_present members (Member.member_name member) t now (ledger st')))
        as (b & Hb & Hbin & Hall).
      { intros Hnil.
        assert (y ∈ co_present members (Member.member_name member) t now (ledger st'))
          as Hyin by (apply co_present_spec; eauto).
        rewrite Hnil in Hyin. set_solver. }
      rewrite Hb. apply co_present_spec in Hbin as (r0 & Hr0 & Hov0 & Hg0).
      exists b, r0. split_and!; try done.
      intros r' y' ???. apply Hall, co_present_spec. eauto.
    + intros Hno.
      destruct (co_present members (Member.member_name member) t now (ledger st'))
        as [|y ys] eqn:Hcp; [done|].
      exfalso.
      assert (y ∈ co_present members (Member.member_name member) t now (ledger st'))
        as Hyin by (rewrite Hcp; set_solver).
      apply co_present_spec in Hyin as (r & Hr & Hov & _). by apply (Hno r).
Qed.

Lemma check_out_escalation_chain_witness :
  handle_check_out bob [ann; bob] 100 (St [new_session "CB" "Bob" 0] {["Bob"]})
  = (CheckedOut (py_round 2 (hours_between 0 100)) (Some "ULEAD") true,
     St [Row.mk "CB" "Bob" (Iso 0) (Some (Iso 100)) (py_round 2 (hours_between 0 100)) "False"] ∅) /\
  Some "ULEAD" = Some (strip (Member.lead_slack_id bob)).
Proof.
  assert (Hout : handle_check_out bob [ann; bob] 100 (St [new_session "CB" "Bob" 0] {["Bob"]})
    = (CheckedOut (py_round 2 (hours_between 0 100)) (Some "ULEAD") true,
       St [Row.mk "CB" "Bob" (Iso 0) (Some (Iso 100)) (py_round 2 (hours_between 0 100)) "False"] ∅))
    by reflexivity.
  split; [exact Hout|].
  destruct (check_out_escalation_chain bob [ann; bob] 100 _ _ _ _ _ Hout)
    as (_ & _ & _ & Hiso & Hlead & _).
  rewrite <- Hlead by (vm_compute; discriminate).
  apply (proj2 (Hiso eq_refl _ 0 _ eq_refl)).
  intros r Hr [Hne _]. simpl in Hr. apply list_elem_of_singleton in Hr as ->.
  by apply Hne.
Defined.

(** A counterexample to a single recipient for every check-out: a ledger
    row of a name no longer in the registry keeps that name in
    [CURRENT_MEMBERS]; Bob checks out, a name remains, no registered member
    is present, and nobody is notified. *)
Lemma check_out_unregistered_present_no_recipient :
  let st := St [Row.mk "CG" "Ghost" (Iso 0) None 0 "False"; new_session "CB" "Bob" 0]
               {["Ghost"; "Bob"]} in
  fst (handle_check_out bob [ann; bob] 100 st)
    = CheckedOut (py_round 2 (hours_between 0 100)) None false /\
  current (snd (handle_check_out bob [ann; bob] 100 st)) = {["Ghost"]}.
Proof. split; reflexivity. Qed.

(** ** The presence set and the ledger *)

Lemma find_last_index_some {A} (p : A -> bool) (l : list A) (i : nat) :
  find_last_index p l = Some i -> exists x, l !! i = Some x /\ p x = true.
Proof.
  revert i. induction l as [|y ys IH]; intros i; simpl; [done|].
  destruct (find_last_index p ys) as [k|] eqn:Hk.
  - intros [= <-]. simpl. by apply IH.
  - destruct (p y) eqn:Hy; intros [= <-]. by exists y.
Qed.

Lemma find_last_index_none_inv {A} (p : A -> bool) (l : list A) :
  find_last_index p l = None -> forall y, y ∈ l -> p y = false.
Proof.
  induction l as [|x xs IH]; simpl; [set_solver|].
  destruct (find_last_index p xs); [done|].
  destruct (p x) eqn:Hx; [done|]. intros _ y Hy.
  apply elem_of_cons in Hy as [->|Hy]; [done|by apply IH].
Qed.

(** What a successful [close_open_session] closed: the last open row of the
    card, else the last open row of the name. *)
Lemma close_open_session_some (c nm : string) (t : Z) (rows : list Row.t)
    (h : Q) (ci : stamp) (w : option (list Row.t)) :
  close_open_session c nm t rows = (Some (h, ci), w) ->
  exists i r, rows !! i = Some r /\ is_open r = true /\
    (Row.card_uid r = c \/ same_name (Row.member_name r) nm = true) /\
    w = Some (<[i := close_row r t h]> rows).
Proof.
  unfold close_open_session.
  destruct (find_last_index (fun r => String.eqb (Row.card_uid r) c && is_open r) rows)
    as [k|] eqn:Hk;
    [|destruct (find_last_index (fun r => same_name (Row.member_name r) nm && is_open r) rows)
        as [k|] eqn:Hk'; [|done]].
  - destruct (find_last_index_some _ _ _ Hk) as (r & Hr & Hp).
    rewrite Hr. intros [= <- <- <-]. exists k, r.
    apply andb_true_iff in Hp as [Hc%String.eqb_eq Ho]. by split_and!; [..|left|].
  - destruct (find_last_index_some _ _ _ Hk') as (r & Hr & Hp).
    rewrite Hr. intros [= <- <- <-]. exists k, r.
    apply andb_true_iff in Hp as [Hc Ho]. by split_and!; [..|right|].
Qed.

Lemma close_open_session_none (c nm : string) (t : Z) (rows : list Row.t)
    (w : option (list Row.t)) :
  close_open_session c nm t rows = (None, w) ->
  forall r, r ∈ rows -> is_open r = true -> same_name (Row.member_name r) nm = false.
Proof.
  unfold close_open_session.
  destruct (find_last_index (fun r => String.eqb (Row.card_uid r) c && is_open r) rows)
    as [k|] eqn:Hk.
  { destruct (find_last_index_some _ _ _ Hk) as (r & -> & _). done. }
  destruct (find_last_index (fun r => same_name (Row.member_name r) nm && is_open r) rows)
    as [k|] eqn:Hk'.
  { destruct (find_last_index_some _ _ _ Hk') as (r & -> & _). done. }
  intros _ r Hr Ho. pose proof (find_last_index_none_inv _ _ Hk' r Hr) as Hn.
  simpl in Hn. by rewrite Ho, andb_true_r in Hn.
Qed.












(** ** Pending sessions, approving and removing one *)

Lemma zip_seq_elem {A} (l : list A) (s i : nat) (x : A) :
  In (i, x) (zip (seq s (length l)) l) <-> (s <= i)%nat /\ l !! (i - s)%nat = Some x.
Proof.
  revert s. induction l as [|y l IH]; intros s; simpl.
  - split; [done|]. intros [_ H]. by rewrite lookup_nil in H.
  - rewrite IH. split.
    + intros [[= <- <-]|[Hle Hl]].
      * rewrite Nat.sub_diag. done.
      * split; [lia|]. by replace (i - s)%nat with (S (i - S s)) by lia.
    + intros [Hle Hl]. destruct (decide (i = s)) as [->|Hne].
      * rewrite Nat.sub_diag in Hl. injection Hl as ->. by left.
      * right. split; [lia|]. by replace (i - s)%nat with (S (i - S s)) in Hl by lia.
Qed.

Lemma zip_seq_sorted {A} (l : list A) (s : nat) :
  StronglySorted (fun a b => (a.1 < b.1)%nat) (zip (seq s (length l)) l).
Proof.
  revert s. induction l as [|y l IH]; intros s; simpl; constructor; [apply IH|].
  apply List.Forall_forall. intros [i x] Hin. apply zip_seq_elem in Hin as [Hle _].
  simpl. lia.
Qed.

Lemma StronglySorted_filter {A} (R : A -> A -> Prop) (p : A -> bool) (l : list A) :
  StronglySorted R l -> StronglySorted R (List.filter p l).
Proof.
  induction 1 as [|a l Hs IH Hf]; simpl; [constructor|].
  destruct (p a); [|done]. constructor; [done|].
  rewrite List.Forall_forall in *. intros x Hx. apply filter_In in Hx as [Hx _]. auto.
Qed.

Lemma get_unapproved_sessions_elem (name : string) (rows : list Row.t) i r :
  (i, r) ∈ get_unapproved_sessions name rows <->
  rows !! i = Some r /\ same_name (Row.member_name r) name = true /\ is_pending r = true.
Proof.
  unfold get_unapproved_sessions, enumerate.
  rewrite list_elem_of_In, filter_In, zip_seq_elem, andb_true_iff.
  simpl. rewrite Nat.sub_0_r. split.
  - intros [[_ H] [H1 H2]]. done.
  - intros (H & H1 & H2). split_and!; [lia|done..].
Qed.

(** X1: [get_unapproved_sessions name] lists exactly the pending sessions
    whose stripped, lower-cased name is [name]'s, each with its index in
    the ledger, in ledger order (indices strictly increasing). *)
Theorem get_unapproved_sessions_spec (name : string) (rows : list Row.t) :
  (forall i r, (i, r) ∈ get_unapproved_sessions name rows <->
     rows !! i = Some r /\ same_name (Row.member_name r) name = true /\
     is_pending r = true) /\
  StronglySorted (fun a b => (a.1 < b.1)%nat) (get_unapproved_sessions name rows).
Proof.
  split; [apply get_unapproved_sessions_elem|].
  apply StronglySorted_filter, zip_seq_sorted.
Qed.

Lemma to_nat_lt (i : Z) (n : nat) : 0 <= i < Z.of_nat n -> (Z.to_nat i < n)%nat.
Proof. intros H. apply Nat2Z.inj_lt. rewrite Z2Nat.id; lia. Qed.

(** X2: [approve_session i] does nothing and answers [False] for an index out
    of range, negative ones included; in range it sets [approved] to
    ["True"] on row [i] only and keeps the ledger's length. *)
Theorem approve_session_spec (i : Z) (rows : list Row.t) :
  ((i < 0 \/ Z.of_nat (length rows) <= i) -> approve_session i rows = (false, None)) /\
  (0 <= i < Z.of_nat (length rows) ->
   exists r rows', rows !! Z.to_nat i = Some r /\
     approve_session i rows = (true, Some rows') /\
     length rows' = length rows /\
     rows' !! Z.to_nat i = Some (approve_row r) /\
     forall j, j <> Z.to_nat i -> rows' !! j = rows !! j).
Proof.
  unfold approve_session. split.
  - intros H. destruct (Z.leb_spec 0 i), (Z.ltb_spec i (Z.of_nat (length rows)));
      simpl; first [reflexivity | lia].
  - intros H. rewrite (proj2 (Z.leb_le _ _)), (proj2 (Z.ltb_lt _ _)) by lia. simpl.
    destruct (lookup_lt_is_Some_2 rows (Z.to_nat i)) as [r Hr]; [by apply to_nat_lt|].
    exists r, (alter approve_row (Z.to_nat i) rows). split_and!; [done|done| | |].
    + apply length_alter.
    + by rewrite list_lookup_alter_eq, Hr.
    + intros j Hj. by apply list_lookup_alter_ne, not_eq_sym.
Qed.

(** X3: [delete_session i] does nothing and answers [False] for an index out
    of range; in range it removes row [i], keeps the rows before it, and
    moves every later row down by one. *)
Theorem delete_session_spec (i : Z) (rows : list Row.t) :
  ((i < 0 \/ Z.of_nat (length rows) <= i) -> delete_session i rows = (false, None)) /\
  (0 <= i < Z.of_nat (length rows) ->
   exists rows', delete_session i rows = (true, Some rows') /\
     length rows' = (length rows - 1)%nat /\
     (forall j, (j < Z.to_nat i)%nat -> rows' !! j = rows !! j) /\
     (forall j, (Z.to_nat i <= j)%nat -> rows' !! j = rows !! S j)).
Proof.
  unfold delete_session. split.
  - intros H. destruct (Z.leb_spec 0 i), (Z.ltb_spec i (Z.of_nat (length rows)));
      simpl; first [reflexivity | lia].
  - intros H. rewrite (proj2 (Z.leb_le _ _)), (proj2 (Z.ltb_lt _ _)) by lia. simpl.
    eexists. split_and!; [reflexivity| | |].
    + apply length_delete, lookup_lt_is_Some_2, to_nat_lt, H.
    + intros j Hj. by apply list_lookup_delete_lt.
    + intros j Hj. by apply list_lookup_delete_ge.
Qed.

(** ** The approval handler *)

Lemma approve_all_sessions_some (name : string) (rows rows' : list Row.t) (count : nat) :
  approve_all_sessions name rows = (count, Some rows') ->
  count <> O /\ rows' = (approve_loop name rows).1.
Proof.
  unfold approve_all_sessions. destruct (approve_loop name rows) as [l [|c]];
    intros Heq; inversion Heq; subst; simpl; auto.
Qed.

Lemma approve_session_some (gi : Z) (rows w : list Row.t) (ok : bool) :
  approve_session gi rows = (ok, Some w) ->
  ok = true /\ w = alter approve_row (Z.to_nat gi) rows.
Proof. unfold approve_session. destruct (_ && _); intros Heq; inversion Heq; auto. Qed.

Lemma delete_session_some (gi : Z) (rows w : list Row.t) (ok : bool) :
  delete_session gi rows = (ok, Some w) ->
  ok = true /\ w = delete (Z.to_nat gi) rows.
Proof. unfold delete_session. destruct (_ && _); intros Heq; inversion Heq; auto. Qed.

Lemma handle_approve_disapprove_write_cases (slack_id text : string)
    (members : list Member.t) (rows rows' : list Row.t) (res : approve_result) :
  handle_approve_disapprove slack_id text members rows = (res, Some rows') ->
  let parts := py_split text in
  (exists count, let target := py_join " " (skipn 2 parts) in
     res = ApprovedAll target count /\ count <> O /\
     is_authorized_approver slack_id target members = true /\
     rows' = (approve_loop target rows).1) \/
  (exists k gi r, let target := py_join " " (firstn (length parts - 2) (skipn 1 parts)) in
     is_authorized_approver slack_id target members = true /\ 1 <= k /\
     get_unapproved_sessions target rows !! Z.to_nat (k - 1) = Some (gi, r) /\
     rows !! gi = Some r /\ same_name (Row.member_name r) target = true /\
     is_pending r = true /\
     ((String.eqb (lower (nth 0 parts "")) "approve" = true /\
       res = ApprovedOne k true /\ rows' = alter approve_row gi rows) \/
      (String.eqb (lower (nth 0 parts "")) "approve" = false /\
       res = RemovedOne k true /\ rows' = delete gi rows))).
Proof.
  intros H. cbv zeta. unfold handle_approve_disapprove in H. cbv zeta in H.
  destruct (py_split text) as [|p0 ps]; [discriminate|].
  repeat (case_match; try discriminate).
  all: match goal with
       | Hi : negb (is_authorized_approver _ _ _) = false |- _ =>
           apply negb_false_iff in Hi
       end.
  - match goal with Ha : approve_all_sessions _ _ = _ |- _ =>
      inversion H; subst; apply approve_all_sessions_some in Ha as [Hc ->] end.
    left. eexists. split_and!; [reflexivity|done..].
  - match goal with
    | Ha : approve_session _ _ = _, Hg : _ !! _ = Some (?gi, ?r), Hk : (?k <=? 0) = false |- _ =>
        inversion H; subst; apply approve_session_some in Ha as [-> ->];
        rewrite Nat2Z.id; right; exists k, gi, r;
        pose proof (proj1 (get_unapproved_sessions_elem _ _ gi r)
                      (list_elem_of_lookup_2 _ _ _ Hg)) as (Hr & Hs & Hp);
        apply Z.leb_gt in Hk
    end.
    split_and!; try done; [lia|]. left. split_and!; done.
  - match goal with
    | Ha : delete_session _ _ = _, Hg : _ !! _ = Some (?gi, ?r), Hk : (?k <=? 0) = false |- _ =>
        inversion H; subst; apply delete_session_some in Ha as [-> ->];
        rewrite Nat2Z.id; right; exists k, gi, r;
        pose proof (proj1 (get_unapproved_sessions_elem _ _ gi r)
                      (list_elem_of_lookup_2 _ _ _ Hg)) as (Hr & Hs & Hp);
        apply Z.leb_gt in Hk
    end.
    split_and!; try done; [lia|]. right. split_and!; done.
Qed.



(** X4: a command of [handle_approve_disapprove] that writes the ledger
    comes from an approver authorized for the target member, and either
    approves all of the target's pending sessions (at least one), or
    approves or removes one pending session of the target, with success. *)
Theorem handle_approve_disapprove_writes (slack_id text : string)
    (members : list Member.t) (rows rows' : list Row.t) (res : approve_result)
    (H : handle_approve_disapprove slack_id text members rows = (res, Some rows')) :
  exists target, is_authorized_approver slack_id target members = true /\
    ((exists count, res = ApprovedAll target count /\ count <> O /\
        rows' = (approve_loop target rows).1) \/
     (exists k gi r, rows !! gi = Some r /\
        same_name (Row.member_name r) target = true /\ is_pending r = true /\
        ((res = ApprovedOne k true /\ rows' = alter approve_row gi rows) \/
         (res = RemovedOne k true /\ rows' = delete gi rows)))).
Proof.
  apply handle_approve_disapprove_write_cases in H. cbv zeta in H.
  destruct H as [(count & Hres & Hc & Ha & Hw)|(k & gi & r & Ha & _ & _ & Hr & Hs & Hp & Hw)].
  - eexists. split; [exact Ha|]. left. eauto.
  - eexists. split; [exact Ha|]. right. exists k, gi, r. split_and!; try done.
    destruct Hw as [(_ & ? & ?)|(_ & ? & ?)]; [left|right]; done.
Qed.

Lemma handle_approve_disapprove_witness :
  handle_approve_disapprove "UANN" "disapprove Bob 1" [ann; bob]
    [Row.mk "CB" "Bob" (Iso 0) (Some (Iso 100)) 1 "False"]
  = (RemovedOne 1 true, Some []) /\
  exists target, is_authorized_approver "UANN" target [ann; bob] = true /\
    ((exists count, RemovedOne 1 true = ApprovedAll target count /\ count <> O /\
        [] = (approve_loop target [Row.mk "CB" "Bob" (Iso 0) (Some (Iso 100)) 1 "False"]).1) \/
     (exists k gi r, [Row.mk "CB" "Bob" (Iso 0) (Some (Iso 100)) 1 "False"] !! gi = Some r /\
        same_name (Row.member_name r) target = true /\ is_pending r = true /\
        ((RemovedOne 1 true = ApprovedOne k true /\
          [] = alter approve_row gi [Row.mk "CB" "Bob" (Iso 0) (Some (Iso 100)) 1 "False"]) \/
         (RemovedOne 1 true = RemovedOne k true /\
          [] = delete gi [Row.mk "CB" "Bob" (Iso 0) (Some (Iso 100)) 1 "False"])))).
Proof.
  assert (Hout : handle_approve_disapprove "UANN" "disapprove Bob 1" [ann; bob]
    [Row.mk "CB" "Bob" (Iso 0) (Some (Iso 100)) 1 "False"]
    = (RemovedOne 1 true, Some [])) by reflexivity.
  split; [exact Hout|].
  exact (handle_approve_disapprove_writes _ _ _ _ _ _ Hout).
Defined.


(** ** Forced check-out *)


Lemma handle_admin_force_checkout_current (slack_id : string) (parts : list string)
    (members : list Member.t) (t : Z) (st st' : state) (r : force_result) :
  handle_admin_force_checkout slack_id parts members t st = (r, st') ->
  current st' = current st \/ current st' = current st ∖ {[py_join " " (skipn 3 parts)]}.
Proof.
  unfold handle_admin_force_checkout. cbv zeta.
  repeat case_match; intros Heq; inversion Heq; subst; cbn [current]; auto.
Qed.

(** ** Lower-cased words *)

Lemma py_lower_char_idem (c : ascii) : py_lower_char (py_lower_char c) = py_lower_char c.
Proof. destruct c as [[] [] [] [] [] [] [] []]; reflexivity. Qed.

Lemma lower_idem (s : string) : lower (lower s) = lower s.
Proof. induction s as [|c s IH]; simpl; [done|]. by rewrite py_lower_char_idem, IH. Qed.

Lemma lower_app (a b : string) : lower (a ++ b)%string = (lower a ++ lower b)%string.
Proof. induction a as [|c a IH]; simpl; [done|]. by rewrite IH. Qed.

Lemma py_split_go_lower (s word : string) :
  lower s = s -> lower word = word -> Forall (fun w => lower w = w) (py_split_go s word).
Proof.
  revert word. induction s as [|c s IH]; intros word Hs Hw; simpl.
  - destruct (String.eqb word ""); constructor; auto.
  - simpl in Hs. injection Hs as Hc Hs.
    destruct (py_isspace c).
    + apply Forall_app. split; [destruct (String.eqb word ""); constructor; auto|].
      apply IH; done.
    + apply IH; [done|]. rewrite lower_app, Hw. simpl. by rewrite Hc.
Qed.

Lemma py_join_lower (l : list string) :
  Forall (fun w => lower w = w) l -> lower (py_join " " l) = py_join " " l.
Proof.
  induction 1 as [|x l Hx Hl IH]; [done|].
  destruct l as [|y l]; [done|].
  change (py_join " " (x :: y :: l)) with (x ++ " " ++ py_join " " (y :: l))%string.
  rewrite !lower_app, Hx, IH. done.
Qed.

(** The target of [admin force checkout], read from the lower-cased
    message, is lower-case. *)
Lemma force_target_lower (s : string) :
  lower (py_join " " (skipn 3 (py_split (lower s)))) = py_join " " (skipn 3 (py_split (lower s))).
Proof.
  apply py_join_lower, Forall_drop, py_split_go_lower; [apply lower_idem|done].
Qed.

(** ** The dispatcher *)

(** Case analysis of a run of [process_message] recorded in [H]. *)
Ltac process_message_cases H :=
  unfold process_message in H; cbv zeta in H;
  repeat (case_match; cbn [negb orb andb] in H; try discriminate).

(** X7: a forced check-out requested through [process_message] never
    removes from [CURRENT_MEMBERS] a name that has a capital letter: the
    target is read from the lower-cased message and discarded as such,
    although the session it closes is found by a case-insensitive match. *)
Theorem process_message_force_keeps_capitalised (m : message)
    (members : list Member.t) (now : Z) (b b' : bot_state) (r : force_result) (n : string)
    (H : process_message m members now b = (DidForce r, b'))
    (Hn : n ∈ current (bot_st b)) (Hcap : lower n <> n) :
  n ∈ current (bot_st b').
Proof.
  process_message_cases H.
  match goal with Hf : handle_admin_force_checkout _ _ _ _ _ = _ |- _ =>
    apply handle_admin_force_checkout_current in Hf end.
  inversion H; subst. unfold with_st. cbn [bot_st].
  match goal with Hc : _ \/ _ |- _ => destruct Hc as [->| ->] end; [done|].
  apply elem_of_difference. split; [done|].
  rewrite elem_of_singleton. intros ->. apply Hcap. apply force_target_lower.
Qed.

Lemma process_message_force_keeps_capitalised_witness :
  process_message (Message "events_api" "message" false "admin force checkout Bob" "UANN" "im")
    [ann; bob] 100 (Bot (St [new_session "CB" "Bob" 0] {["Bob"]}) false)
  = (DidForce (ForceClosed "bob" (py_round 2 (hours_between 0 100)) false),
     Bot (St [Row.mk "CB" "Bob" (Iso 0) (Some (Iso 100)) (py_round 2 (hours_between 0 100)) "False"]
             {["Bob"]}) false) /\
  "Bob" ∈ current (St [Row.mk "CB" "Bob" (Iso 0) (Some (Iso 100))
                        (py_round 2 (hours_between 0 100)) "False"] {["Bob"]}).
Proof.
  assert (Hout : process_message
    (Message "events_api" "message" false "admin force checkout Bob" "UANN" "im")
    [ann; bob] 100 (Bot (St [new_session "CB" "Bob" 0] {["Bob"]}) false)
  = (DidForce (ForceClosed "bob" (py_round 2 (hours_between 0 100)) false),
     Bot (St [Row.mk "CB" "Bob" (Iso 0) (Some (Iso 100)) (py_round 2 (hours_between 0 100)) "False"]
             {["Bob"]}) false)) by reflexivity.
  split; [exact Hout|].
  exact (process_message_force_keeps_capitalised _ _ _ _ _ _ "Bob" Hout
           ltac:(cbn [bot_st current]; set_solver) ltac:(vm_compute; discriminate)).
Defined.

(** Hypotheses recording the branch taken, in plain form. *)
Ltac branch_facts :=
  repeat match goal with
         | Hx : (_ || _) = false |- _ => apply orb_false_iff in Hx as [? ?]
         | Hx : negb _ = false |- _ => apply negb_false_iff in Hx
         | Hx : negb _ = true |- _ => apply negb_true_iff in Hx
         | Hx : String.eqb _ _ = true |- _ => apply String.eqb_eq in Hx
         | Hx : String.eqb _ _ = false |- _ => apply String.eqb_neq in Hx
         end.

(** X8: [USE_FORMAL_MODE] changes only on the DM ["announcement formal"]
    (to on) or ["announcement casual"] (to off), after stripping and
    lower-casing, sent by the admin, registered in the member list; the
    ledger and [CURRENT_MEMBERS] stay as they were. *)
Theorem process_message_formal_mode_admin_only (m : message)
    (members : list Member.t) (now : Z) (b b' : bot_state) (o : outcome)
    (H : process_message m members now b = (o, b'))
    (Hc : use_formal_mode b' <> use_formal_mode b) :
  ev_user m = ADMIN_SLACK_ID /\ ev_channel_type m = "im" /\
  members_get members (ev_user m) <> None /\ bot_st b' = bot_st b /\
  ((use_formal_mode b' = true /\ lower (strip (ev_text m)) = "announcement formal") \/
   (use_formal_mode b' = false /\ lower (strip (ev_text m)) = "announcement casual")).
Proof.
  process_message_cases H.
  all: inversion H; subst; try (exfalso; apply Hc; reflexivity).
  all: branch_facts.
  all: split_and!; try congruence; try reflexivity.
  - left. done.
  - right. done.
Qed.

Lemma process_message_formal_mode_admin_only_witness :
  process_message (Message "events_api" "message" false " Announcement Formal" ADMIN_SLACK_ID "im")
    [Member.mk ADMIN_SLACK_ID "Admin" "CZ" (Some 1) ""] 0 (Bot (St [] ∅) false)
  = (DidFormal true, Bot (St [] ∅) true) /\
  (ADMIN_SLACK_ID = ADMIN_SLACK_ID /\ "im" = "im" /\
   members_get [Member.mk ADMIN_SLACK_ID "Admin" "CZ" (Some 1) ""] ADMIN_SLACK_ID <> None /\
   St [] ∅ = St [] ∅ /\
   ((true = true /\ lower (strip " Announcement Formal") = "announcement formal") \/
    (true = false /\ lower (strip " Announcement Formal") = "announcement casual"))).
Proof.
  assert (Hout : process_message
    (Message "events_api" "message" false " Announcement Formal" ADMIN_SLACK_ID "im")
    [Member.mk ADMIN_SLACK_ID "Admin" "CZ" (Some 1) ""] 0 (Bot (St [] ∅) false)
    = (DidFormal true, Bot (St [] ∅) true)) by reflexivity.
  split; [exact Hout|].
  exact (process_message_formal_mode_admin_only _ _ _ _ _ _ Hout ltac:(discriminate)).
Defined.

(** X9: [process_message] changes no state (ledger, [CURRENT_MEMBERS],
    announcement mode) for a request that is not an [events_api] message
    event from a person, nor for one outside a direct message, with no
    sender, or from a sender missing from the member list. *)
Theorem process_message_outside_registered_dm (m : message)
    (members : list Member.t) (now : Z) (b b' : bot_state) (o : outcome)
    (H : process_message m members now b = (o, b'))
    (Hout : req_type m <> "events_api" \/ ev_type m <> "message" \/ has_bot_id m = true \/
            ev_channel_type m <> "im" \/ ev_user m = "" \/
            members_get members (ev_user m) = None) :
  b' = b.
Proof.
  process_message_cases H.
  all: inversion H; subst; try reflexivity.
  all: branch_facts; exfalso.
  all: destruct Hout as [?|[?|[?|[?|[?|?]]]]]; congruence.
Qed.

Lemma process_message_outside_registered_dm_witness :
  process_message (Message "events_api" "message" false "check in" "UANN" "channel")
    [ann; bob] 0 (Bot (St [] ∅) false)
  = (Ignored, Bot (St [] ∅) false) /\ Bot (St [] ∅) false = Bot (St [] ∅) false.
Proof.
  assert (Hout : process_message
    (Message "events_api" "message" false "check in" "UANN" "channel")
    [ann; bob] 0 (Bot (St [] ∅) false) = (Ignored, Bot (St [] ∅) false)) by reflexivity.
  split; [exact Hout|].
  apply (process_message_outside_registered_dm _ _ _ _ _ _ Hout).
  right; right; right; left. discriminate.
Defined.

(** ** Length of the ledger *)

Lemma approve_loop_length (name : string) (rows : list Row.t) :
  length (approve_loop name rows).1 = length rows.
Proof.
  induction rows as [|r rs IH]; simpl; [done|].
  destruct (approve_loop name rs) as [l c]. simpl in IH.
  destruct (_ && _); simpl; by rewrite IH.
Qed.

Lemma handle_approve_disapprove_none (slack_id text : string) (members : list Member.t)
    (rows : list Row.t) (res : approve_result) (k : Z) :
  handle_approve_disapprove slack_id text members rows = (res, None) ->
  res <> RemovedOne k true.
Proof.
  intros H. unfold handle_approve_disapprove in H. cbv zeta in H.
  destruct (py_split text) as [|p0 ps]; [inversion H; discriminate|].
  repeat (case_match; try (inversion H; discriminate)).
  all: inversion H; subst.
  all: match goal with Hd : delete_session _ _ = _ |- _ =>
         unfold delete_session in Hd; revert Hd end.
  all: destruct ((0 <=? _) && _); intros Hd; inversion Hd; congruence.
Qed.

Lemma handle_approve_disapprove_length (slack_id text : string)
    (members : list Member.t) (rows : list Row.t) (res : approve_result)
    (w : option (list Row.t)) :
  handle_approve_disapprove slack_id text members rows = (res, w) ->
  let rows' := match w with Some l => l | None => rows end in
  match res with
  | RemovedOne _ true => S (length rows') = length rows
  | _ => length rows' = length rows
  end.
Proof.
  intros H. cbv zeta. destruct w as [l|].
  - apply handle_approve_disapprove_write_cases in H. cbv zeta in H.
    destruct H as [(count & -> & _ & _ & ->)|(k & gi & r & _ & _ & _ & Hr & _ & _ & Hw)].
    + apply approve_loop_length.
    + destruct Hw as [(_ & -> & ->)|(_ & -> & ->)]; [apply length_alter|].
      rewrite length_delete by eauto. apply lookup_lt_Some in Hr. lia.
  - destruct res as [| | | | | | | | |k [|]| |]; try reflexivity.
    exfalso. by apply (handle_approve_disapprove_none _ _ _ _ _ k H).
Qed.

Lemma handle_check_in_length (member : Member.t) (now : Z) (st st' : state)
    (r : check_in_result) :
  handle_check_in member now st = (r, st') ->
  match r with
  | CheckedIn _ => length (ledger st') = S (length (ledger st))
  | AlreadyCheckedIn => length (ledger st') = length (ledger st)
  end.
Proof.
  unfold handle_check_in. repeat case_match; intros Heq; inversion Heq; subst; try done.
  cbn [ledger]. rewrite length_app. simpl. lia.
Qed.

Lemma handle_check_out_length (member : Member.t) (members : list Member.t)
    (t : Z) (st st' : state) (r : check_out_result) :
  handle_check_out member members t st = (r, st') ->
  length (ledger st') = length (ledger st).
Proof.
  unfold handle_check_out. destruct (close_open_session _ _ _ _) as [[[h ci]|] w] eqn:Hc.
  - apply close_open_session_some in Hc as (i & r0 & _ & _ & _ & ->).
    intros Heq; inversion Heq; subst. cbn [ledger]. apply length_insert.
  - case_match; intros Heq; inversion Heq; subst; done.
Qed.

Lemma handle_admin_force_checkout_length (slack_id : string) (parts : list string)
    (members : list Member.t) (t : Z) (st st' : state) (r : force_result) :
  handle_admin_force_checkout slack_id parts members t st = (r, st') ->
  length (ledger st') = length (ledger st).
Proof.
  unfold handle_admin_force_checkout. cbv zeta.
  repeat case_match; intros Heq; inversion Heq; subst; cbn [ledger];
    rewrite ?length_insert; done.
Qed.

(** X10: one message to [process_message] adds a ledger row only when it
    checks someone in, removes one only when a [disapprove] succeeds, and
    otherwise keeps the ledger's length: check-outs, forced check-outs and
    approvals rewrite rows in place. *)
Theorem process_message_ledger_length (m : message) (members : list Member.t)
    (now : Z) (b b' : bot_state) (o : outcome)
    (H : process_message m members now b = (o, b')) :
  match o with
  | DidCheckIn (CheckedIn _) => length (ledger (bot_st b')) = S (length (ledger (bot_st b)))
  | DidApprove (RemovedOne _ true) => S (length (ledger (bot_st b'))) = length (ledger (bot_st b))
  | _ => length (ledger (bot_st b')) = length (ledger (bot_st b))
  end.
Proof.
  process_message_cases H.
  all: inversion H; subst; try reflexivity; unfold with_st; cbn [bot_st ledger].
  all: match goal with
       | Hx : handle_check_in _ _ _ = _ |- _ => apply handle_check_in_length in Hx; exact Hx
       | Hx : handle_check_out _ _ _ _ = _ |- _ =>
           apply handle_check_out_length in Hx; exact Hx
       | Hx : handle_admin_force_checkout _ _ _ _ _ = _ |- _ =>
           apply handle_admin_force_checkout_length in Hx; exact Hx
       | Hx : handle_approve_disapprove _ _ _ _ = _ |- _ =>
           apply handle_approve_disapprove_length in Hx; exact Hx
       end.
Qed.

Lemma process_message_ledger_length_witness :
  process_message (Message "events_api" "message" false "check in" "UANN" "im")
    [ann; bob] 0 (Bot (St [] ∅) false)
  = (DidCheckIn (CheckedIn true), Bot (St [new_session "CA" "Ann" 0] {["Ann"]}) false) /\
  length [new_session "CA" "Ann" 0] = S (length (@nil Row.t)).
Proof.
  assert (Hout : process_message (Message "events_api" "message" false "check in" "UANN" "im")
    [ann; bob] 0 (Bot (St [] ∅) false)
    = (DidCheckIn (CheckedIn true), Bot (St [new_session "CA" "Ann" 0] {["Ann"]}) false))
    by reflexivity.
  split; [exact Hout|].
  exact (process_message_ledger_length _ _ _ _ _ _ Hout).
Defined.

(** ** Check-out without an open session *)

Lemma close_open_session_none_card (c nm : string) (t : Z) (rows : list Row.t)
    (w : option (list Row.t)) :
  close_open_session c nm t rows = (None, w) ->
  forall r, r ∈ rows -> is_open r = true -> Row.card_uid r <> c.
Proof.
  unfold close_open_session.
  destruct (find_last_index (fun r => String.eqb (Row.card_uid r) c && is_open r) rows)
    as [k|] eqn:Hk.
  { destruct (find_last_index_some _ _ _ Hk) as (r & -> & _). done. }
  intros _ r Hr Ho Hc. pose proof (find_last_index_none_inv _ _ Hk r Hr) as Hn.
  simpl in Hn. rewrite Hc, String.eqb_refl, Ho in Hn. discriminate.
Qed.

(** X11: when [handle_check_out] finds no open session for the member (none
    with its card, none with its name), it leaves the ledger alone and
    drops the name from [CURRENT_MEMBERS]; it reports an inconsistency
    exactly when the name was there, and "not checked in" otherwise. *)
Theorem handle_check_out_without_session (member : Member.t) (members : list Member.t)
    (t : Z) (st st' : state) (r : check_out_result)
    (H : handle_check_out member members t st = (r, st'))
    (Hr : r = Inconsistency \/ r = NotCheckedIn) :
  let name := Member.member_name member in
  ledger st' = ledger st /\ current st' = current st ∖ {[name]} /\
  (forall row, row ∈ ledger st -> is_open row = true ->
     Row.card_uid row <> Member.card_uid member /\
     same_name (Row.member_name row) name = false) /\
  (r = Inconsistency <-> name ∈ current st).
Proof.
  cbv zeta. revert H. unfold handle_check_out.
  destruct (close_open_session _ _ _ _) as [[[h ci]|] w] eqn:Hc.
  { intros Heq. inversion Heq; subst. destruct Hr; discriminate. }
  pose proof (close_open_session_none _ _ _ _ _ Hc) as Hn.
  pose proof (close_open_session_none_card _ _ _ _ _ Hc) as Hcard.
  destruct (bool_decide (Member.member_name member ∈ current st)) eqn:Hb;
    [apply bool_decide_eq_true in Hb|apply bool_decide_eq_false in Hb];
    intros Heq; inversion Heq; subst; cbn [ledger current].
  - split_and!; [done|done|intros; split; eauto|done].
  - split_and!; [done| |intros; split; eauto|split; [discriminate|done]].
    set_solver.
Qed.

Lemma handle_check_out_without_session_witness :
  handle_check_out bob [ann; bob] 100 (St [] {["Bob"]}) = (Inconsistency, St [] ∅) /\
  (ledger (St [] ∅) = ledger (St [] {["Bob"]}) /\
   current (St [] ∅) = current (St [] {["Bob"]}) ∖ {[Member.member_name bob]} /\
   (forall row, row ∈ ledger (St [] {["Bob"]}) -> is_open row = true ->
      Row.card_uid row <> Member.card_uid bob /\
      same_name (Row.member_name row) (Member.member_name bob) = false) /\
   (Inconsistency = Inconsistency <-> Member.member_name bob ∈ current (St [] {["Bob"]}))).
Proof.
  assert (Hout : handle_check_out bob [ann; bob] 100 (St [] {["Bob"]})
                 = (Inconsistency, St [] ∅)) by reflexivity.
  split; [exact Hout|].
  exact (handle_check_out_without_session _ _ _ _ _ _ Hout (or_introl eq_refl)).
Defined.

(** ** Startup recovery: recovered and stale names *)

Lemma rebuild_step_inv (now : Z) (cur0 : gset string) (acc : rebuild_acc) (r : Row.t) :
  NoDup (recovered acc ++ stale_names (stale acc)) ->
  (forall n, n ∈ recovered acc ++ stale_names (stale acc) -> n ∈ seen_names acc) ->
  cur acc = cur0 ∪ list_to_set (recovered acc) ->
  let acc' := rebuild_step now acc r in
  NoDup (recovered acc' ++ stale_names (stale acc')) /\
  (forall n, n ∈ recovered acc' ++ stale_names (stale acc') -> n ∈ seen_names acc') /\
  cur acc' = cur0 ∪ list_to_set (recovered acc').
Proof.
  intros Hnd Hseen Hcur. cbv zeta. unfold rebuild_step.
  destruct (is_open r); cbn [negb]; [|auto].
  set (name := strip (Row.member_name r)).
  destruct (bool_decide (name ∈ seen_names acc)) eqn:Hb; [auto|].
  apply bool_decide_eq_false in Hb.
  assert (Hnot : name ∉ recovered acc ++ stale_names (stale acc))
    by (intros Hin; apply Hb, Hseen, Hin).
  apply NoDup_app in Hnd as (Hr & Hdis & Hs).
  destruct (is_stale_age _); cbn [recovered stale cur seen_names];
    unfold stale_names in *; rewrite ?map_app; cbn [map fst].
  - split_and!.
    + rewrite app_assoc. apply NoDup_app. split_and!.
      * apply NoDup_app. done.
      * intros x Hx. rewrite list_elem_of_singleton. intros ->. done.
      * apply NoDup_singleton.
    + intros n Hn. rewrite app_assoc, elem_of_app in Hn.
      destruct Hn as [Hn|Hn%list_elem_of_singleton]; [|set_solver].
      apply elem_of_union_r, Hseen, Hn.
    + done.
  - split_and!.
    + rewrite <- app_assoc. apply NoDup_app. split_and!; [done| |].
      * intros x Hx. rewrite elem_of_app, list_elem_of_singleton.
        intros [->|Hx']; [apply Hnot, elem_of_app; by left|by apply (Hdis x)].
      * apply NoDup_app. split_and!; [apply NoDup_singleton| |done].
        intros x ->%list_elem_of_singleton Hx. apply Hnot, elem_of_app. by right.
    + intros n Hn. rewrite <- app_assoc, !elem_of_app in Hn.
      destruct Hn as [Hn|[Hn%list_elem_of_singleton|Hn]]; [| set_solver |];
        apply elem_of_union_r, Hseen, elem_of_app; auto.
    + rewrite list_to_set_app_L, Hcur. cbn [list_to_set]. set_solver.
Qed.

Lemma rebuild_fold_inv (now : Z) (cur0 : gset string) (l : list Row.t) (acc : rebuild_acc) :
  NoDup (recovered acc ++ stale_names (stale acc)) ->
  (forall n, n ∈ recovered acc ++ stale_names (stale acc) -> n ∈ seen_names acc) ->
  cur acc = cur0 ∪ list_to_set (recovered acc) ->
  let acc' := fold_left (rebuild_step now) l acc in
  NoDup (recovered acc' ++ stale_names (stale acc')) /\
  cur acc' = cur0 ∪ list_to_set (recovered acc').
Proof.
  revert acc. induction l as [|r l IH]; intros acc H1 H2 H3; cbv zeta; simpl; [done|].
  destruct (rebuild_step_inv now cur0 acc r H1 H2 H3) as (H1' & H2' & H3').
  by apply IH.
Qed.

(** X12: [rebuild_current_members] reports each name at most once, and
    never both as recovered and as stale; the presence set it leaves is the
    one it started from plus exactly the recovered names. *)
Theorem rebuild_current_members_partition (rows : list Row.t) (now : Z)
    (cur0 : gset string) :
  match rebuild_current_members rows now cur0 with
  | (cur', recovered', stale') =>
      NoDup (recovered' ++ stale_names stale') /\ cur' = cur0 ∪ list_to_set recovered'
  end.
Proof.
  unfold rebuild_current_members.
  apply (rebuild_fold_inv now cur0 (rev rows) (RebuildAcc ∅ cur0 [] [])).
  - constructor.
  - intros n Hn. by apply elem_of_nil in Hn.
  - cbn. set_solver.
Qed.

(** ** Seniority *)

(** X13: [get_seniority] always lies between 1 and 5, and is the stored
    value whenever that value lies in that range. *)
Theorem get_seniority_range (m : Member.t) :
  1 <= get_seniority m <= 5 /\
  (forall v, Member.seniority m = Some v -> 1 <= v <= 5 -> get_seniority m = v).
Proof.
  unfold get_seniority. split.
  - destruct (Member.seniority m) as [v|]; [|lia].
    destruct (Z.ltb_spec v 1), (Z.ltb_spec 5 v); simpl; lia.
  - intros v -> Hv. rewrite (proj2 (Z.ltb_ge v 1)), (proj2 (Z.ltb_ge 5 v)) by lia. done.
Qed.

(** ** A check-in followed by a check-out *)





